(** * Candle synchronisation engine of the BTC realtime chart

    A shallow embedding of the candle store, history fetch, cache,
    reconnection and backfill code of [src/components/BTCRealtimeChart.tsx]
    (and of its earlier variant, which carries [normalizeCandle]), with the
    properties the specification states about them. *)

From Stdlib Require Import ZArith List Bool Lia SpecFloat Sorted Permutation.
From stdpp Require Import gmap strings list fin_maps sorting.

Local Open Scope Z_scope.

(** ** JavaScript numbers

    A price is an IEEE-754 double.  [spec_float] is the Standard Library's
    inductive description of such a value: zero, infinity, NaN or a finite
    mantissa and exponent. *)
Module Num.

Definition number := spec_float.

Definition prec : Z := 53.
Definition emax : Z := 1024.

(** [Number.isFinite] and the global [isFinite] agree on numbers. *)
Definition isFinite (x : number) : bool :=
  match x with
  | S754_zero _ | S754_finite _ _ _ => true
  | S754_infinity _ | S754_nan => false
  end.

Definition NaN : number := S754_nan.
Definition Infinity : number := S754_infinity false.

(** The double nearest to an integer literal. *)
Definition of_Z (z : Z) : number := binary_normalize prec emax z 0 false.

(** [a <= b] on doubles; false as soon as one side is NaN. *)
Definition leb (a b : number) : bool := SFleb a b.

Definition isNaN (x : number) : bool :=
  match x with
  | S754_nan => true
  | _ => false
  end.

(** [Math.max(a, b)]: [NaN] when either argument is [NaN]; [+0] counts as
    larger than [-0]. *)
Definition jsMax (a b : number) : number :=
  match a, b with
  | S754_nan, _ | _, S754_nan => S754_nan
  | S754_zero sa, S754_zero sb => S754_zero (sa && sb)
  | _, _ => if SFltb a b then b else a
  end.

(** [Math.min(a, b)], with [-0] smaller than [+0]. *)
Definition jsMin (a b : number) : number :=
  match a, b with
  | S754_nan, _ | _, S754_nan => S754_nan
  | S754_zero sa, S754_zero sb => S754_zero (sa || sb)
  | _, _ => if SFltb b a then b else a
  end.

(** [const clamp = (v, min, max) => Math.max(min, Math.min(max, v))] *)
Definition clamp (v lo hi : number) : number := jsMax lo (jsMin hi v).

End Num.

(** ** Candles *)
Module Candle.
Import Num.

(** [type CandleData = { time: UTCTimestamp; open; high; low; close }],
    for the candles whose time is a whole number of seconds since the
    epoch.  The code computes a time as a double and does not test it
    before a merge; the candles with any time it can compute, [NaN]
    included, are [Wire.Candle] below, and [Wire.embed] places these among
    them. *)
Record CandleData := mkCandle {
  time : Z;
  open : number;
  high : number;
  low : number;
  close : number
}.

(** The predicate of the [validBars] filters:
    [bar.time > 0 && isFinite(bar.open) && isFinite(bar.high) &&
     isFinite(bar.low) && isFinite(bar.close)]
    (the [typeof ... === 'number'] conjuncts hold by typing). *)
Definition isValidBar (bar : CandleData) : bool :=
  (0 <? time bar) && isFinite (open bar) && isFinite (high bar)
    && isFinite (low bar) && isFinite (close bar).

Definition validBars (bars : list CandleData) : list CandleData :=
  List.filter isValidBar bars.

(** The finiteness-only predicate used by [fetchBinanceCandles] and by
    the live handlers of the current component. *)
Definition finiteOHLC (c : CandleData) : bool :=
  isFinite (open c) && isFinite (high c) && isFinite (low c)
    && isFinite (close c).

(** The range relation of the data model: [low <= open,close <= high]. *)
Definition ohlcInRange (c : CandleData) : bool :=
  leb (low c) (open c) && leb (open c) (high c)
    && leb (low c) (close c) && leb (close c) (high c).

(** A flat candle at price [p], used in examples. *)
Definition flat (t : Z) (p : Z) : CandleData :=
  mkCandle t (of_Z p) (of_Z p) (of_Z p) (of_Z p).

End Candle.

(** ** The JavaScript [Map] used by [mergeBars]

    Keys are kept in order of first insertion; [set] on a key that is
    already present replaces the value in place. *)
Module JsMap.
Import Candle.

Definition t := list (Z * CandleData).

Definition empty : t := [].

Fixpoint set (k : Z) (v : CandleData) (m : t) : t :=
  match m with
  | [] => [(k, v)]
  | (k', v') :: m' =>
      if Z.eqb k' k then (k', v) :: m' else (k', v') :: set k v m'
  end.

Fixpoint get (k : Z) (m : t) : option CandleData :=
  match m with
  | [] => None
  | (k', v') :: m' => if Z.eqb k' k then Some v' else get k m'
  end.

Definition keys (m : t) : list Z := List.map fst m.
Definition values (m : t) : list CandleData := List.map snd m.

(** Every entry is stored under the time of its own candle. *)
Definition wellKeyed (m : t) : Prop :=
  Forall (fun kv => time (snd kv) = fst kv) m.

End JsMap.

(** ** CandleStore: [mergeBars] *)
Module CandleStore.
Import Candle.

(** [Array.prototype.sort] with the comparator [(a, b) => a.time - b.time].
    The sort is stable; a stable insertion sort returns the same array. *)
Definition compareTime (a b : CandleData) : Z := time a - time b.

Fixpoint sortInsert (x : CandleData) (l : list CandleData) : list CandleData :=
  match l with
  | [] => [x]
  | y :: l' =>
      if 0 <? compareTime x y then y :: sortInsert x l' else x :: y :: l'
  end.

Definition sortByTime (l : list CandleData) : list CandleData :=
  List.fold_right sortInsert [] l.

(** [allBars.forEach(bar => uniqueBars.set(bar.time, bar))] *)
Definition collect (allBars : list CandleData) (m : JsMap.t) : JsMap.t :=
  List.fold_left (fun acc bar => JsMap.set (time bar) bar acc) allBars m.

Definition mergeBars (newBars existingBars : list CandleData) : list CandleData :=
  let allBars := newBars ++ existingBars in
  let uniqueBars := collect allBars JsMap.empty in
  sortByTime (JsMap.values uniqueBars).

(** The candle a series holds for a given time (the first one, which is
    the only one when times are unique). *)
Definition candleAt (t : Z) (series : list CandleData) : option CandleData :=
  List.find (fun bar => Z.eqb (time bar) t) series.

(** The last candle of a list carrying a given time. *)
Fixpoint lastAt (t : Z) (bars : list CandleData) : option CandleData :=
  match bars with
  | [] => None
  | bar :: rest =>
      match lastAt t rest with
      | Some c => Some c
      | None => if Z.eqb (time bar) t then Some bar else None
      end
  end.

Definition times (series : list CandleData) : list Z := List.map time series.

(** Strictly increasing by [time]. *)
Definition strictlyIncreasing (series : list CandleData) : Prop :=
  Sorted (fun a b => time a < time b) series.

(** The store after a sequence of updates, each merged as
    [mergeBars(update, current)]. *)
Definition mergeAll (updates : list (list CandleData)) (series : list CandleData)
  : list CandleData :=
  List.fold_left (fun cur upd => mergeBars upd cur) updates series.

End CandleStore.

(** ** CacheLayer: [cacheBars] and [getCachedBars] over [localStorage] *)
Module Cache.
Import Candle.

(** [type TimePeriod = "1m" | "30m" | "1h" | "1d"] *)
Inductive TimePeriod := P1m | P30m | P1h | P1d.

Definition periodName (p : TimePeriod) : string :=
  match p with
  | P1m => "1m" | P30m => "30m" | P1h => "1h" | P1d => "1d"
  end.

Definition period_eqb (a b : TimePeriod) : bool :=
  match a, b with
  | P1m, P1m | P30m, P30m | P1h, P1h | P1d, P1d => true
  | _, _ => false
  end.

(** What [JSON.parse] makes of a stored string: either it throws, or it
    yields the object [{ bars, timestamp }] written by [cacheBars]. *)
Inductive StoredItem :=
| Unparsable
| Snapshot (bars : list CandleData) (timestamp : Z).

Definition cacheKey (symbol : string) (period : TimePeriod) : string :=
  "btc_chart_" +:+ symbol +:+ "_" +:+ periodName period.

(** [60 * 60 * 1000] *)
Definition freshnessWindowMs : Z := 60 * 60 * 1000.

(** [now] is the value of [Date.now()].  This is the entry of a write that
    succeeds, for bars that [JSON.stringify] and [JSON.parse] give back as
    they are (finite prices, whole-second times); the code makes the write
    inside [try], and a [setItem] that throws leaves the store as it
    was. *)
Definition cacheBars (now : Z) (symbol : string) (bars : list CandleData)
    (period : TimePeriod) (store : gmap string StoredItem) : gmap string StoredItem :=
  <[cacheKey symbol period := Snapshot bars now]> store.

(** Returns the bars read and the store as the call leaves it. *)
Definition getCachedBars (now : Z) (symbol : string) (period : TimePeriod)
    (store : gmap string StoredItem) : list CandleData * gmap string StoredItem :=
  match store !! cacheKey symbol period with
  | None => ([], store)
  | Some Unparsable => ([], store)
  | Some (Snapshot bars timestamp) =>
      let cacheAge := now - timestamp in
      if freshnessWindowMs <? cacheAge
      then ([], delete (cacheKey symbol period) store)
      else (bars, store)
  end.

End Cache.

(** ** Computations that may throw *)
Module Exn.

Inductive Result (A : Type) :=
| Ok (a : A)
| Throw.
Arguments Ok {A} a.
Arguments Throw {A}.

Definition bind {A B} (r : Result A) (k : A -> Result B) : Result B :=
  match r with
  | Ok a => k a
  | Throw => Throw
  end.

(** [try { body } catch { return handler }] *)
Definition tryCatch {A} (body : Result A) (handler : A) : Result A :=
  match body with
  | Ok a => Ok a
  | Throw => Ok handler
  end.

(** [Array.prototype.map] with a callback that may throw. *)
Fixpoint mapM {A B} (f : A -> Result B) (l : list A) : Result (list B) :=
  match l with
  | [] => Ok []
  | x :: l' => bind (f x) (fun y => bind (mapM f l') (fun ys => Ok (y :: ys)))
  end.

Definition returns {A} (r : Result A) : Prop := exists a, r = Ok a.

End Exn.

(** ** HistoryProvider: [fetchBinanceCandles] and [fetchHistory] *)
Module History.
Import Num Candle Exn Cache.

(** One kline with a numeric open time: the open time in milliseconds, a
    whole number, and the four prices after their conversion to numbers
    ([Number(k[i])], [parseFloat(kline[i])]).  [Wire.RawKline] below is the
    kline with any open time [Number(k[0])] can give. *)
Record RawKline := mkKline {
  k_t : Z;
  k_o : number;
  k_h : number;
  k_l : number;
  k_c : number
}.

(** An element of the response array: a kline, or a value that cannot be
    indexed ([null]), on which [k[0]] throws. *)
Inductive KlineElem :=
| Row (k : RawKline)
| NotIndexable.

Inductive JsonBody :=
| BodyInvalid                      (* [res.json()] rejects *)
| BodyNonArray
| BodyArray (rows : list KlineElem).

Inductive HttpReply :=
| NetworkError                     (* [fetch] rejects: no connection, timed out *)
| Reply (ok : bool) (body : JsonBody).

(** [{ time: Math.floor(Number(k[0]) / 1000), open: Number(k[1]), ... }] *)
Definition candleOfKline (k : RawKline) : CandleData :=
  mkCandle (k_t k / 1000) (k_o k) (k_h k) (k_l k) (k_c k).

Definition klineToCandle (e : KlineElem) : Result CandleData :=
  match e with
  | NotIndexable => Throw
  | Row k => Ok (candleOfKline k)
  end.

(** The body of the [try] block of [fetchBinanceCandles]. *)
Definition fetchBinanceCandles_try (reply : HttpReply) : Result (list CandleData) :=
  match reply with
  | NetworkError => Throw
  | Reply ok body =>
      if negb ok then Ok []
      else match body with
           | BodyInvalid => Throw
           | BodyNonArray => Ok []
           | BodyArray rows =>
               bind (mapM klineToCandle rows)
                    (fun candles => Ok (List.filter finiteOHLC candles))
           end
  end.

Definition fetchBinanceCandles (reply : HttpReply) : Result (list CandleData) :=
  tryCatch (fetchBinanceCandles_try reply) [].

(** [fetchHistory]: nothing for the daily period, the full Binance fetch
    otherwise; the requested range is not used. *)
Definition fetchHistory (selectedPeriod : TimePeriod) (reply : HttpReply)
    (_startTimeMs _endTimeMs : Z) : Result (list CandleData) :=
  if period_eqb selectedPeriod P1d then Ok [] else fetchBinanceCandles reply.

(** Live kline messages of [connectBinance]. *)
Inductive LiveMsg :=
| MsgUnparsable
| MsgNoKline
| MsgKline (k : RawKline).

(** [ws.onmessage] of [connectBinance]: the new value of [candleHistory]. *)
Definition onMessageBinance (msg : LiveMsg) (prev : list CandleData) : list CandleData :=
  match msg with
  | MsgUnparsable => prev
  | MsgNoKline => prev
  | MsgKline k =>
      let candle := candleOfKline k in
      if negb (isFinite (open candle)) || negb (isFinite (high candle))
         || negb (isFinite (low candle)) || negb (isFinite (close candle))
      then prev
      else CandleStore.mergeBars [candle] prev
  end.

End History.

(** ** The earlier variant of the component: [normalizeCandle] *)
Module Legacy.
Import Num Candle Exn History.

(** [normalizeCandle] on a kline with a whole number of milliseconds as
    open time; [Wire.normalizeCandle] below is the function on any open
    time, where [time <= 0] is false for [NaN]. *)
Definition normalizeCandle (kline : RawKline) : option CandleData :=
  let time := k_t kline / 1000 in
  if negb (isFinite (k_o kline)) || negb (isFinite (k_h kline))
     || negb (isFinite (k_l kline)) || negb (isFinite (k_c kline))
     || (time <=? 0)
  then None
  else Some (mkCandle time (k_o kline) (k_h kline) (k_l kline) (k_c kline)).

Definition normalizeElem (e : KlineElem) : Result (option CandleData) :=
  match e with
  | NotIndexable => Throw
  | Row k => Ok (normalizeCandle k)
  end.

(** [data.map(normalizeCandle).filter(candle => candle !== null)] *)
Definition keepNonNull (l : list (option CandleData)) : list CandleData :=
  List.flat_map (fun o => match o with Some c => [c] | None => [] end) l.

Definition fetchHistory_try (reply : HttpReply) : Result (list CandleData) :=
  match reply with
  | NetworkError => Throw
  | Reply ok body =>
      if negb ok then Throw
      else match body with
           | BodyInvalid => Throw
           | BodyNonArray => Throw   (* [data.map] is not a function *)
           | BodyArray rows =>
               bind (mapM normalizeElem rows) (fun os => Ok (keepNonNull os))
           end
  end.

Definition fetchHistory (reply : HttpReply) : Result (list CandleData) :=
  tryCatch (fetchHistory_try reply) [].

End Legacy.

(** ** SideSwap daily candles: [doRequest] and [fetchSideSwapDailyCandles] *)
Module SideSwap.
Import Num Candle Exn.

Record Pair := mkPair { base : string; quote : string }.

Definition swapPair (p : Pair) : Pair := mkPair (quote p) (base p).

(** One entry of [chart_sub.data] with a readable date: the day as
    seconds since the epoch ([tsSec], a whole number) and the prices after
    [Number(...)].  An entry whose date does not parse has [tsSec = NaN];
    candles with such a time are [Wire.Candle] below. *)
Record DailyRow := mkDaily {
  d_time : Z;
  d_open : number;
  d_high : number;
  d_low : number;
  d_close : number
}.

Inductive DailyElem :=
| Daily (d : DailyRow)
| Unreadable.                       (* [d.time] throws *)

(** What [ws.onmessage] finds in [evt.data]. *)
Inductive Payload :=
| PayloadUnparsable                 (* [JSON.parse] throws *)
| CantFindMarket                    (* [error.message] has "can't find market" *)
| DataMissing                       (* [chart_sub.data] is not an array *)
| Data (rows : list DailyElem).

Inductive WsEvent :=
| EvOpen (sendThrows : bool)
| EvMessage (p : Payload)
| EvError
| EvClose.

(** How the socket of one request behaves: the constructor throws, or the
    socket delivers events, each at some number of milliseconds after
    the request started. *)
Inductive Socket :=
| CtorThrows
| Opened (events : list (Z * WsEvent)).

Definition timeoutMs : Z := 5000.

Definition dailyToCandle (e : DailyElem) : Result CandleData :=
  match e with
  | Unreadable => Throw
  | Daily d => Ok (mkCandle (d_time d) (d_open d) (d_high d) (d_low d) (d_close d))
  end.

(** The value [ws.onmessage] resolves the promise with. *)
Definition onmessage (p : Payload) : list CandleData :=
  match p with
  | PayloadUnparsable => []
  | CantFindMarket => []
  | DataMissing => []
  | Data rows =>
      match mapM dailyToCandle rows with
      | Ok candles => CandleStore.sortByTime candles
      | Throw => []
      end
  end.

(** The first settlement of the promise: the value and the time at which
    it resolves.  An event that comes at or after [timeoutMs] finds the
    promise already resolved to [[]] by the timer. *)
Fixpoint settle (events : list (Z * WsEvent)) : list CandleData * Z :=
  match events with
  | [] => ([], timeoutMs)
  | (at_ms, ev) :: rest =>
      if timeoutMs <=? at_ms then ([], timeoutMs)
      else match ev with
           | EvOpen _ => settle rest
           | EvClose => settle rest
           | EvMessage p => (onmessage p, at_ms)
           | EvError => ([], at_ms)
           end
  end.

Definition doRequest (s : Socket) : list CandleData * Z :=
  match s with
  | CtorThrows => ([], 0)
  | Opened events => settle events
  end.

Definition maxAttempts : nat := 5.

(** [Math.min(4000, 500 * Math.pow(2, attempt))] *)
Definition backoffDelay (attempt : nat) : Z :=
  Z.min 4000 (500 * 2 ^ Z.of_nat attempt).

(** What the function does to the outside: socket requests and waits. *)
Inductive Action :=
| Request (p : Pair)
| Sleep (ms : Z).

Definition isRequest (a : Action) : bool :=
  match a with Request _ => true | Sleep _ => false end.

(** The network answers the [n]-th request, made for pair [p], with
    [net n p]. *)
Definition Network := nat -> Pair -> Socket.

(** The [for] loop, from iteration [attempt] with [remaining] iterations
    left; [pair] is [SIDESWAP_PAIR] and [sent] counts the requests made.
    Returns the candles, the final [SIDESWAP_PAIR] and the actions. *)
Fixpoint attemptLoop (net : Network) (remaining attempt sent : nat) (pair : Pair)
  : list CandleData * Pair * list Action :=
  match remaining with
  | O => ([], pair, [])
  | S remaining' =>
      let primary := fst (doRequest (net sent pair)) in
      if (0 <? length primary)%nat then (primary, pair, [Request pair])
      else
        let swapped := fst (doRequest (net (S sent) (swapPair pair))) in
        if (0 <? length swapped)%nat
        then (swapped, swapPair pair, [Request pair; Request (swapPair pair)])
        else
          let '(candles, pair', actions) :=
            attemptLoop net remaining' (S attempt) (S (S sent)) pair in
          (candles, pair',
           Request pair :: Request (swapPair pair) :: Sleep (backoffDelay attempt)
             :: actions)
  end.

(** [resolved] is what [resolveSideSwapPair] found on the first attempt
    ([None] when it found nothing or [symbol] is empty). *)
Definition fetchSideSwapDailyCandles (resolved : option Pair) (net : Network)
    (configured : Pair) : list CandleData * Pair * list Action :=
  let pair := match resolved with Some p => p | None => configured end in
  attemptLoop net maxAttempts 0 0 pair.

Definition requestsOf (actions : list Action) : list Action :=
  List.filter isRequest actions.

(** The actions of [k] failed iterations in a row, the first of them
    iteration number [attempt]. *)
Fixpoint failedRounds (pair : Pair) (attempt k : nat) : list Action :=
  match k with
  | O => []
  | S k' =>
      Request pair :: Request (swapPair pair) :: Sleep (backoffDelay attempt)
        :: failedRounds pair (S attempt) k'
  end.

(** The time spent in an action list: each request takes until its
    promise resolves, each wait its delay.  [sent] numbers the requests as
    [attemptLoop] does. *)
Fixpoint elapsed (net : Network) (sent : nat) (actions : list Action) : Z :=
  match actions with
  | [] => 0
  | Request p :: rest => snd (doRequest (net sent p)) + elapsed net (S sent) rest
  | Sleep ms :: rest => ms + elapsed net sent rest
  end.

End SideSwap.

(** ** LiveStream: reconnection with capped exponential backoff *)
Module LiveStream.

(** The two variables of the effect's closure. *)
Record Conn := mkConn { stopped : bool; attempt : nat }.

Definition initial : Conn := mkConn false 0.

Definition baseMs : Z := 500.
Definition capMs : Z := 15000.

(** [Math.min(15000, 500 * Math.pow(2, attempt))]; the product is exact in
    doubles until it overflows to [Infinity], where the minimum is the cap
    as well. *)
Definition reconnectDelay (attempt : nat) : Z :=
  Z.min capMs (baseMs * 2 ^ Z.of_nat attempt).

Inductive ConnEvent :=
| WsOpen
| WsClose
| Cleanup.

(** [ws.onopen = () => { attempt = 0; }] *)
Definition onopen (c : Conn) : Conn := mkConn (stopped c) 0.

(** [ws.onclose]: the new state and the delay handed to [setTimeout]. *)
Definition onclose (c : Conn) : Conn * option Z :=
  if stopped c then (c, None)
  else
    let attempt' := S (attempt c) in
    (mkConn (stopped c) attempt', Some (reconnectDelay attempt')).

Definition handle (c : Conn) (ev : ConnEvent) : Conn * option Z :=
  match ev with
  | WsOpen => (onopen c, None)
  | WsClose => onclose c
  | Cleanup => (mkConn true (attempt c), None)
  end.

(** The state after a sequence of events and the delay scheduled by the
    last of them. *)
Fixpoint run (c : Conn) (evs : list ConnEvent) : Conn * option Z :=
  match evs with
  | [] => (c, None)
  | [ev] => handle c ev
  | ev :: rest => run (fst (handle c ev)) rest
  end.

(** Every delay handed to [setTimeout] over a sequence of events. *)
Fixpoint delays (c : Conn) (evs : list ConnEvent) : list Z :=
  match evs with
  | [] => []
  | ev :: rest =>
      match snd (handle c ev) with
      | Some d => d :: delays (fst (handle c ev)) rest
      | None => delays (fst (handle c ev)) rest
      end
  end.

End LiveStream.

(** ** SyncController: older-edge backfill, [loadMoreHistory] *)
Module Sync.
Import Candle CandleStore.

Record State := mkState {
  candleHistory : list CandleData;
  oldestLoadedTime : option Z;      (* [oldestLoadedTimeRef.current] *)
  newestLoadedTime : option Z
}.

(** [7 * 24 * 60 * 60] seconds *)
Definition lookbackStep : Z := 7 * 24 * 60 * 60.
(** [30 * 24 * 60 * 60 * 1000] milliseconds *)
Definition retentionMs : Z := 30 * 24 * 60 * 60 * 1000.

(** [!oldestLoadedTimeRef.current]: [null] and [0] are both falsy. *)
Definition falsy (r : option Z) : bool :=
  match r with
  | None => true
  | Some v => v =? 0
  end.

Definition current (r : option Z) : Z :=
  match r with Some v => v | None => 0 end.

(** The range the call would ask for, in milliseconds, or [None] when it
    returns before [fetchHistory]. *)
Definition requestedRange (st : State) (now from : Z) : option (Z * Z) :=
  if falsy (oldestLoadedTime st) || (current (oldestLoadedTime st) <=? from)
  then None
  else
    let newStartTime := Z.max (from - lookbackStep) 0 * 1000 in
    let endTime := current (oldestLoadedTime st) * 1000 in
    let thirtyDaysAgo := now - retentionMs in
    if newStartTime <? thirtyDaysAgo then None
    else Some (newStartTime, endTime).

(** The functional update passed to [setCandleHistory], together with
    the assignment to [oldestLoadedTimeRef.current]. *)
Definition applyOlder (newBars : list CandleData) (st : State) : State :=
  let mergedBars := mergeBars newBars (candleHistory st) in
  match validBars mergedBars with
  | [] => st
  | first :: rest =>
      mkState (first :: rest) (Some (time first)) (newestLoadedTime st)
  end.

(** [fetchHistory] is the provider, given as the function from the
    requested range to the bars it returns.  The result is the new state
    and the range fetched, if any. *)
Definition loadMoreHistory (fetchHistory : Z -> Z -> list CandleData)
    (st : State) (now from : Z) : State * option (Z * Z) :=
  match requestedRange st now from with
  | None => (st, None)
  | Some (newStartTime, endTime) =>
      let newBars := fetchHistory newStartTime endTime in
      match newBars with
      | [] => (st, Some (newStartTime, endTime))
      | _ :: _ => (applyOlder newBars st, Some (newStartTime, endTime))
      end
  end.

End Sync.

(** ** The daily chart with a generated 5-minute series

    The variant of the component that keeps [dailyCandleHistory], fed by
    SideSwap, and [fiveMinCandleHistory], generated once a second. *)
Module Overlay.
Import Num Candle.

(** The updater passed to [setDailyCandleHistory] for a realtime update
    [c] with a whole-second time; [Wire.applyDailyUpdate] below is the
    updater for any time. *)
Definition applyDailyUpdate (c : CandleData) (prev : list CandleData)
  : list CandleData :=
  match last prev with
  | None => [c]
  | Some lastCandle =>
      if time c =? time lastCandle then List.removelast prev ++ [c]
      else if time lastCandle <? time c then prev ++ [c]
      else prev
  end.

(** [5 * 60] *)
Definition fiveMinInterval : Z := 5 * 60.

(** [Math.floor(now / fiveMinInterval) * fiveMinInterval] *)
Definition currentFiveMinTime (now : Z) : Z :=
  now / fiveMinInterval * fiveMinInterval.

Definition maxFiveMinCandles : nat := 288.

(** [updated.splice(0, updated.length - 288)] when [updated.length > 288] *)
Definition keepLast (updated : list CandleData) : list CandleData :=
  if (maxFiveMinCandles <? length updated)%nat
  then List.skipn (length updated - maxFiveMinCandles) updated
  else updated.

(** The updater passed to [setFiveMinCandleHistory] by the one-second
    timer; [now] is in seconds, [lastDailyClose] is the close of the last
    daily candle (the timer does nothing while there is none) and
    [newPrice] the price drawn for this tick. *)
Definition fiveMinTick (now : Z) (lastDailyClose newPrice : number)
    (prev : list CandleData) : list CandleData :=
  match last prev with
  | None =>
      [mkCandle (currentFiveMinTime now) lastDailyClose
         (jsMax lastDailyClose newPrice) (jsMin lastDailyClose newPrice) newPrice]
  | Some lastCandle =>
      if currentFiveMinTime now =? time lastCandle then
        let updatedCandle :=
          mkCandle (time lastCandle) (open lastCandle)
            (jsMax (high lastCandle) newPrice) (jsMin (low lastCandle) newPrice)
            newPrice in
        List.removelast prev ++ [updatedCandle]
      else if time lastCandle <? currentFiveMinTime now then
        let newCandle :=
          mkCandle (currentFiveMinTime now) (close lastCandle)
            (jsMax (close lastCandle) newPrice) (jsMin (close lastCandle) newPrice)
            newPrice in
        keepLast (prev ++ [newCandle])
      else prev
  end.




End Overlay.

(** ** Candles as they arrive

    A time computed by the code is a double: [Math.floor(Number(k[0]) / 1000)]
    and [Math.floor(new Date(...).getTime() / 1000)] give a whole number of
    seconds, an infinity, or [NaN] when the open time or the date does not
    parse.  [Wire.Candle] carries such a time; [Wire.embed] places the
    candles with whole-second times among them, and the functions below
    are the code's functions on [Wire.Candle]. *)
Module Wire.
Import Num.

Inductive JsTime :=
| NegInfinity
| Seconds (z : Z)
| PosInfinity
| NotANumber.

Definition isSeconds (t : JsTime) : bool :=
  match t with Seconds _ => true | _ => false end.

(** [a < b] on doubles: false as soon as one side is [NaN]. *)
Definition tltb (a b : JsTime) : bool :=
  match a, b with
  | NotANumber, _ | _, NotANumber => false
  | Seconds x, Seconds y => x <? y
  | NegInfinity, NegInfinity | PosInfinity, PosInfinity => false
  | NegInfinity, _ | _, PosInfinity => true
  | _, NegInfinity | PosInfinity, _ => false
  end.

(** [t <= 0] *)
Definition tleb0 (t : JsTime) : bool :=
  match t with
  | NegInfinity => true
  | Seconds z => z <=? 0
  | PosInfinity | NotANumber => false
  end.

(** The key comparison of [Map], SameValueZero: [NaN] is the same key as
    [NaN]. *)
Definition sameValueZero (a b : JsTime) : bool :=
  match a, b with
  | NotANumber, NotANumber | NegInfinity, NegInfinity
  | PosInfinity, PosInfinity => true
  | Seconds x, Seconds y => x =? y
  | _, _ => false
  end.

(** [Math.floor(ms / 1000)] *)
Definition floorSeconds (ms : JsTime) : JsTime :=
  match ms with
  | Seconds z => Seconds (z / 1000)
  | other => other
  end.

Record Candle := mkCandle {
  time : JsTime;
  open : number;
  high : number;
  low : number;
  close : number
}.

Definition embed (c : Candle.CandleData) : Candle :=
  mkCandle (Seconds (Candle.time c)) (Candle.open c) (Candle.high c)
    (Candle.low c) (Candle.close c).

(** [bar.time > 0 && isFinite(bar.open) && ... && isFinite(bar.close)] *)
Definition isValidBar (bar : Candle) : bool :=
  tltb (Seconds 0) (time bar) && isFinite (open bar) && isFinite (high bar)
    && isFinite (low bar) && isFinite (close bar).

Definition validBars (bars : list Candle) : list Candle :=
  List.filter isValidBar bars.

Definition finiteOHLC (c : Candle) : bool :=
  isFinite (open c) && isFinite (high c) && isFinite (low c) && isFinite (close c).

(** [uniqueBars.set(bar.time, bar)] on the insertion-ordered map. *)
Fixpoint mapSet (k : JsTime) (v : Candle) (m : list (JsTime * Candle))
  : list (JsTime * Candle) :=
  match m with
  | [] => [(k, v)]
  | (k', v') :: m' =>
      if sameValueZero k' k then (k', v) :: m' else (k', v') :: mapSet k v m'
  end.

(** Insertion for the stable sort under [(a, b) => a.time - b.time]: [x]
    goes behind [y] when [x.time - y.time > 0].  With a [NaN] time in the
    array the comparator is not an order and the standard leaves the
    result to the engine; this is the insertion order. *)
Fixpoint sortInsert (x : Candle) (l : list Candle) : list Candle :=
  match l with
  | [] => [x]
  | y :: l' =>
      if tltb (time y) (time x) then y :: sortInsert x l' else x :: y :: l'
  end.

Definition sortByTime (l : list Candle) : list Candle :=
  List.fold_right sortInsert [] l.

Definition collect (allBars : list Candle) (m : list (JsTime * Candle))
  : list (JsTime * Candle) :=
  List.fold_left (fun acc bar => mapSet (time bar) bar acc) allBars m.

Definition mergeBars (newBars existingBars : list Candle) : list Candle :=
  let allBars := newBars ++ existingBars in
  let uniqueBars := collect allBars [] in
  sortByTime (List.map snd uniqueBars).

Definition mergeAll (updates : list (list Candle)) (series : list Candle)
  : list Candle :=
  List.fold_left (fun cur upd => mergeBars upd cur) updates series.

Definition times (series : list Candle) : list JsTime := List.map time series.

(** Strictly increasing by [time], with [<] as the code's [<]. *)
Definition strictlyIncreasing (series : list Candle) : Prop :=
  Sorted (fun a b => tltb (time a) (time b) = true) series.

(** Every time is a whole number of seconds. *)
Definition wholeSeconds (series : list Candle) : Prop :=
  Forall (fun c => isSeconds (time c) = true) series.

(** No arrangement of the candles is strictly increasing. *)
Definition cannotBeOrdered (series : list Candle) : Prop :=
  ∀ arranged, arranged ≡ₚ series → ¬ strictlyIncreasing arranged.

(** *** Klines and [normalizeCandle] *)

(** A kline as the code reads it: [Number(k[0])], the open time in
    milliseconds (a whole number, an infinity or [NaN]), and the four
    prices after their conversion. *)
Record RawKline := mkKline {
  k_t : JsTime;
  k_o : number;
  k_h : number;
  k_l : number;
  k_c : number
}.

Definition candleOfKline (k : RawKline) : Candle :=
  mkCandle (floorSeconds (k_t k)) (k_o k) (k_h k) (k_l k) (k_c k).

(** [if (!isFinite(open) || ... || !isFinite(close) || time <= 0) return null] *)
Definition normalizeCandle (kline : RawKline) : option Candle :=
  let time := floorSeconds (k_t kline) in
  if negb (isFinite (k_o kline)) || negb (isFinite (k_h kline))
     || negb (isFinite (k_l kline)) || negb (isFinite (k_c kline))
     || tleb0 time
  then None
  else Some (mkCandle time (k_o kline) (k_h kline) (k_l kline) (k_c kline)).

(** [data.map(normalizeCandle).filter(candle => candle !== null)] *)
Definition normalizeAll (klines : list RawKline) : list Candle :=
  List.flat_map
    (fun k => match normalizeCandle k with Some c => [c] | None => [] end) klines.

(** What [normalizeCandle] lets through: finite prices and a time that
    is not [<= 0]. *)
Definition admitted (c : Candle) : bool :=
  finiteOHLC c && negb (tleb0 (time c)).

(** *** Older-edge backfill on the wire model *)

Record State := mkState {
  candleHistory : list Candle;
  oldestLoadedTime : option JsTime;
  newestLoadedTime : option JsTime
}.

(** [!oldestLoadedTimeRef.current]: [null], [0] and [NaN] are falsy. *)
Definition falsy (r : option JsTime) : bool :=
  match r with
  | None => true
  | Some (Seconds z) => z =? 0
  | Some NotANumber => true
  | Some _ => false
  end.

(** [Number(from) >= Number(oldest)] for a whole-second [from]. *)
Definition notOlder (from : Z) (oldest : option JsTime) : bool :=
  match oldest with
  | Some (Seconds o) => o <=? from
  | Some NegInfinity => true
  | _ => false
  end.

(** [Number(oldest) * 1000] *)
Definition toMs (t : option JsTime) : JsTime :=
  match t with
  | Some (Seconds o) => Seconds (o * 1000)
  | Some other => other
  | None => Seconds 0
  end.

Definition requestedRange (st : State) (now from : Z) : option (Z * JsTime) :=
  if falsy (oldestLoadedTime st) || notOlder from (oldestLoadedTime st)
  then None
  else
    let newStartTime := Z.max (from - 7 * 24 * 60 * 60) 0 * 1000 in
    let endTime := toMs (oldestLoadedTime st) in
    let thirtyDaysAgo := now - 30 * 24 * 60 * 60 * 1000 in
    if newStartTime <? thirtyDaysAgo then None
    else Some (newStartTime, endTime).

Definition applyOlder (newBars : list Candle) (st : State) : State :=
  let mergedBars := mergeBars newBars (candleHistory st) in
  match validBars mergedBars with
  | [] => st
  | first :: rest =>
      mkState (first :: rest) (Some (time first)) (newestLoadedTime st)
  end.

Definition loadMoreHistory (fetchHistory : Z -> JsTime -> list Candle)
    (st : State) (now from : Z) : State * option (Z * JsTime) :=
  match requestedRange st now from with
  | None => (st, None)
  | Some (newStartTime, endTime) =>
      let newBars := fetchHistory newStartTime endTime in
      match newBars with
      | [] => (st, Some (newStartTime, endTime))
      | _ :: _ => (applyOlder newBars st, Some (newStartTime, endTime))
      end
  end.

(** *** Newer-edge backfill, [loadMoreRecentData] *)

(** [Number(to) <= Number(newest)] for a whole-second [to]. *)
Definition notNewer (to : Z) (newest : option JsTime) : bool :=
  match newest with
  | Some (Seconds n) => to <=? n
  | Some PosInfinity => true
  | _ => false
  end.

Definition requestedRecentRange (st : State) (to : Z) : option (JsTime * Z) :=
  if falsy (newestLoadedTime st) || notNewer to (newestLoadedTime st)
  then None
  else Some (toMs (newestLoadedTime st), to * 1000).

Definition applyNewer (newBars : list Candle) (st : State) : State :=
  let mergedBars := mergeBars newBars (candleHistory st) in
  match validBars mergedBars with
  | [] => st
  | first :: rest =>
      mkState (first :: rest) (oldestLoadedTime st)
        (Some (time (List.last rest first)))
  end.

Definition loadMoreRecentData (fetchHistory : JsTime -> Z -> list Candle)
    (st : State) (to : Z) : State * option (JsTime * Z) :=
  match requestedRecentRange st to with
  | None => (st, None)
  | Some (startTime, endTime) =>
      let newBars := fetchHistory startTime endTime in
      match newBars with
      | [] => (st, Some (startTime, endTime))
      | _ :: _ => (applyNewer newBars st, Some (startTime, endTime))
      end
  end.

(** *** Live kline messages of [connectBinance] *)

Inductive LiveMsg :=
| MsgUnparsable
| MsgNoKline
| MsgKline (k : RawKline).

(** [ws.onmessage] of [connectBinance]: the new value of [candleHistory].
    The four prices are tested, the time is not. *)
Definition onMessageBinance (msg : LiveMsg) (prev : list Candle) : list Candle :=
  match msg with
  | MsgUnparsable => prev
  | MsgNoKline => prev
  | MsgKline k =>
      let candle := candleOfKline k in
      if negb (isFinite (open candle)) || negb (isFinite (high candle))
         || negb (isFinite (low candle)) || negb (isFinite (close candle))
      then prev
      else mergeBars [candle] prev
  end.

(** The kline behind a wire kline (open time 0 when it is not a whole
    number of milliseconds). *)
Definition unembedKline (k : RawKline) : History.RawKline :=
  History.mkKline (match k_t k with Seconds z => z | _ => 0 end)
    (k_o k) (k_h k) (k_l k) (k_c k).

(** *** The realtime daily update *)

(** [a === b] on doubles: false as soon as one side is [NaN]. *)
Definition strictEq (a b : JsTime) : bool :=
  match a, b with
  | Seconds x, Seconds y => x =? y
  | NegInfinity, NegInfinity | PosInfinity, PosInfinity => true
  | _, _ => false
  end.

(** The updater passed to [setDailyCandleHistory] for a realtime update
    [c]: replace the last candle when [c.time === last.time], append when
    [c.time > last.time], and return [prev] otherwise. *)
Definition applyDailyUpdate (c : Candle) (prev : list Candle) : list Candle :=
  match last prev with
  | None => [c]
  | Some lastCandle =>
      if strictEq (time c) (time lastCandle) then List.removelast prev ++ [c]
      else if tltb (time lastCandle) (time c) then prev ++ [c]
      else prev
  end.

(** *** Between the two models *)

Definition embedEntry (kv : Z * Candle.CandleData) : JsTime * Candle :=
  (Seconds (fst kv), embed (snd kv)).

(** The whole-second candle behind a wire candle (time 0 when the wire
    time is not a whole number of seconds). *)
Definition unembed (c : Candle) : Candle.CandleData :=
  Candle.mkCandle (match time c with Seconds z => z | _ => 0 end)
    (open c) (high c) (low c) (close c).

(** A kline whose open time is a whole number of milliseconds. *)
Definition embedKline (k : History.RawKline) : RawKline :=
  mkKline (Seconds (History.k_t k)) (History.k_o k) (History.k_h k)
    (History.k_l k) (History.k_c k).

Definition embedState (st : Sync.State) : State :=
  mkState (List.map embed (Sync.candleHistory st))
    (option_map Seconds (Sync.oldestLoadedTime st))
    (option_map Seconds (Sync.newestLoadedTime st)).

End Wire.

(** ** Concrete inputs used in the examples below *)
Module Samples.
Import Num Candle History SideSwap.

(** A kline whose low (9) lies above its high (1). *)
Definition invertedKline : RawKline :=
  mkKline 1700000000000 (of_Z 5) (of_Z 1) (of_Z 9) (of_Z 5).

Definition invertedCandle : CandleData :=
  mkCandle 1700000000 (of_Z 5) (of_Z 1) (of_Z 9) (of_Z 5).

(** A kline with open time 0 ms and finite prices. *)
Definition zeroTimeKline : RawKline :=
  mkKline 0 (of_Z 1) (of_Z 1) (of_Z 1) (of_Z 1).

(** A daily record whose [high] converts to [NaN]. *)
Definition nanHighDaily : DailyRow :=
  mkDaily 1700006400 (of_Z 1) NaN (of_Z 1) (of_Z 1).

(** A cache holding one snapshot for [("btcusdt", "1h")], written at
    time 1000. *)
Definition cachedSeries : list CandleData := [flat 100 10; flat 160 11].

Definition warmStore : gmap string Cache.StoredItem :=
  Cache.cacheBars 1000 "btcusdt" cachedSeries Cache.P1h ∅.

(** A network on which no request is ever answered: every socket opens
    and stays silent until the timer fires. *)
Definition silentNetwork : Network := fun _ _ => Opened [(40, EvOpen false)].

Definition btcPair : Pair := mkPair "btc" "usdt".

(** The backfill scenario: the oldest loaded candle is at
    [T0 = 1700000000] s, the clock reads 100 s later, and the viewport
    asks for [T0 - 500]. *)
Definition T0 : Z := 1700000000.
Definition nowMs : Z := 1700000100000.

Definition readyState : Sync.State :=
  Sync.mkState [flat T0 10; flat (T0 + 60) 11] (Some T0) (Some (T0 + 60)).

(** A provider that has two older candles for any range. *)
Definition olderBars : Z -> Z -> list CandleData :=
  fun _ _ => [flat (T0 - 1200) 8; flat (T0 - 600) 9].

(** A provider that has a single candle, 100 s before [T0]. *)
Definition recentBar : Z -> Z -> list CandleData :=
  fun _ _ => [flat (T0 - 100) 9].

(** A series whose oldest candle is 25 days old. *)
Definition agedState : Sync.State :=
  Sync.mkState [flat 1697840100 10] (Some 1697840100) (Some 1697840100).

(** A two-candle series and an update that re-sends one of its times and
    brings a new one. *)
Definition loadedSeries : list CandleData := [flat 100 10; flat 160 11].
Definition mixedUpdate : list CandleData := [flat 160 99; flat 220 12].
Definition resentUpdate : list CandleData := [flat 160 99; flat 100 98].

(** A live kline for a minute the series does not have yet. *)
Definition freshKline : RawKline :=
  mkKline 220000 (of_Z 12) (of_Z 12) (of_Z 12) (of_Z 12).

(** A candle whose time is [NaN]: what [Math.floor(k[0] / 1000)] or
    [new Date(row.date).getTime() / 1000] give for a record without a
    readable date. *)
Definition undatedCandle : Wire.Candle :=
  Wire.mkCandle Wire.NotANumber (of_Z 7) (of_Z 7) (of_Z 7) (of_Z 7).

(** A kline whose open time is not a number, with finite prices. *)
Definition undatedKline : Wire.RawKline :=
  Wire.mkKline Wire.NotANumber (of_Z 7) (of_Z 7) (of_Z 7) (of_Z 7).

(** [readyState] and [olderBars] as the component holds and receives
    them. *)
Definition wireReadyState : Wire.State := Wire.embedState readyState.

Definition wireOlderBars : Z -> Wire.JsTime -> list Wire.Candle :=
  fun _ _ => List.map Wire.embed [flat (T0 - 1200) 8; flat (T0 - 600) 9].

Definition wireNewerBars : Wire.JsTime -> Z -> list Wire.Candle :=
  fun _ _ => List.map Wire.embed [flat (T0 + 120) 12].

End Samples.

Import Num Candle CandleStore.

(** * Properties *)

(** ** The map built by [mergeBars] *)
Section JsMapFacts.

Lemma get_set (k k' : Z) (v : CandleData) (m : JsMap.t) :
  JsMap.get k' (JsMap.set k v m) = if Z.eqb k k' then Some v else JsMap.get k' m.
Proof.
  induction m as [|[k0 v0] m IH]; simpl.
  - reflexivity.
  - destruct (Z.eqb_spec k0 k) as [->|Hne]; simpl.
    + destruct (Z.eqb_spec k k'); reflexivity.
    + destruct (Z.eqb_spec k0 k') as [->|Hne'].
      * destruct (Z.eqb_spec k k'); [congruence | reflexivity].
      * exact IH.
Qed.

Lemma keys_set (k k' : Z) (v : CandleData) (m : JsMap.t) :
  k' ∈ JsMap.keys (JsMap.set k v m) ↔ k' = k ∨ k' ∈ JsMap.keys m.
Proof.
  unfold JsMap.keys.
  induction m as [|[k0 v0] m IH]; simpl.
  - rewrite list_elem_of_singleton, elem_of_nil. tauto.
  - destruct (Z.eqb_spec k0 k) as [->|Hne]; simpl.
    + rewrite !elem_of_cons. tauto.
    + rewrite !elem_of_cons, IH. tauto.
Qed.

Lemma NoDup_keys_set (k : Z) (v : CandleData) (m : JsMap.t) :
  NoDup (JsMap.keys m) → NoDup (JsMap.keys (JsMap.set k v m)).
Proof.
  induction m as [|[k0 v0] m IH]; simpl; intros Hnd.
  - apply NoDup_singleton.
  - destruct (Z.eqb_spec k0 k) as [->|Hne]; simpl.
    + exact Hnd.
    + apply NoDup_cons in Hnd as [Hnotin Hnd].
      apply NoDup_cons. split; [|auto].
      intros Hin. apply keys_set in Hin as [->|Hin]; [congruence | auto].
Qed.

Lemma wellKeyed_set (v : CandleData) (m : JsMap.t) :
  JsMap.wellKeyed m → JsMap.wellKeyed (JsMap.set (time v) v m).
Proof.
  unfold JsMap.wellKeyed.
  induction m as [|[k0 v0] m IH]; simpl; intros Hwk.
  - repeat constructor.
  - apply Forall_cons in Hwk as [Hhd Htl]. simpl in Hhd.
    destruct (Z.eqb_spec k0 (time v)) as [->|Hne].
    + constructor; [reflexivity | exact Htl].
    + constructor; [exact Hhd | auto].
Qed.

Lemma get_Some_elem (k : Z) (v : CandleData) (m : JsMap.t) :
  JsMap.get k m = Some v → (k, v) ∈ m.
Proof.
  induction m as [|[k0 v0] m IH]; simpl; [discriminate|].
  destruct (Z.eqb_spec k0 k) as [->|Hne]; intros H.
  - injection H as ->. apply elem_of_cons. now left.
  - apply elem_of_cons. right. auto.
Qed.

Lemma elem_get_Some (k : Z) (v : CandleData) (m : JsMap.t) :
  NoDup (JsMap.keys m) → (k, v) ∈ m → JsMap.get k m = Some v.
Proof.
  induction m as [|[k0 v0] m IH]; simpl; intros Hnd Hin.
  - now apply elem_of_nil in Hin.
  - apply NoDup_cons in Hnd as [Hnotin Hnd].
    apply elem_of_cons in Hin as [Heq|Hin].
    + injection Heq as -> ->. now rewrite Z.eqb_refl.
    + destruct (Z.eqb_spec k0 k) as [->|Hne]; [|auto].
      exfalso. apply Hnotin.
      change k with (fst (k, v)). now apply list_elem_of_fmap_2.
Qed.

End JsMapFacts.

(** ** [lastAt] and [candleAt] *)
Section LookupFacts.

Lemma lastAt_app (t : Z) (l1 l2 : list CandleData) :
  lastAt t (l1 ++ l2) =
  match lastAt t l2 with Some c => Some c | None => lastAt t l1 end.
Proof.
  induction l1 as [|b l1 IH]; simpl.
  - now destruct (lastAt t l2).
  - rewrite IH. now destruct (lastAt t l2).
Qed.

Lemma lastAt_Some (t : Z) (l : list CandleData) (c : CandleData) :
  lastAt t l = Some c → c ∈ l ∧ time c = t.
Proof.
  induction l as [|b l IH]; simpl; [discriminate|].
  destruct (lastAt t l) as [c'|].
  - intros H. injection H as ->. destruct IH as [Hin Ht]; [reflexivity|].
    split; [apply elem_of_cons; now right | exact Ht].
  - destruct (Z.eqb_spec (time b) t) as [Ht|Hne]; [|discriminate].
    intros H. injection H as ->. split; [apply elem_of_cons; now left | exact Ht].
Qed.

Lemma lastAt_None (t : Z) (l : list CandleData) :
  lastAt t l = None ↔ t ∉ times l.
Proof.
  unfold times. induction l as [|b l IH]; simpl.
  - split; [intros _ H; now apply elem_of_nil in H | reflexivity].
  - rewrite not_elem_of_cons, <- IH.
    destruct (lastAt t l) as [c'|].
    + split; [discriminate | intros [_ H]; discriminate].
    + destruct (Z.eqb_spec (time b) t) as [Ht|Hne].
      * split; [discriminate | intros [H _]; congruence].
      * split; [intros _; split; congruence | reflexivity].
Qed.

Lemma lastAt_unique (l : list CandleData) (c : CandleData) :
  NoDup (times l) → c ∈ l → lastAt (time c) l = Some c.
Proof.
  unfold times. induction l as [|b l IH]; simpl; intros Hnd Hin.
  - now apply elem_of_nil in Hin.
  - apply NoDup_cons in Hnd as [Hnotin Hnd].
    apply elem_of_cons in Hin as [->|Hin].
    + apply lastAt_None in Hnotin. rewrite Hnotin. now rewrite Z.eqb_refl.
    + now rewrite IH.
Qed.

Lemma candleAt_Some (t : Z) (l : list CandleData) (c : CandleData) :
  candleAt t l = Some c → c ∈ l ∧ time c = t.
Proof.
  unfold candleAt. intros H. apply find_some in H as [Hin Ht].
  split; [now apply list_elem_of_In | now apply Z.eqb_eq].
Qed.

Lemma candleAt_unique (l : list CandleData) (c : CandleData) :
  NoDup (times l) → c ∈ l → candleAt (time c) l = Some c.
Proof.
  unfold times, candleAt. induction l as [|b l IH]; simpl; intros Hnd Hin.
  - now apply elem_of_nil in Hin.
  - apply NoDup_cons in Hnd as [Hnotin Hnd].
    apply elem_of_cons in Hin as [->|Hin].
    + now rewrite Z.eqb_refl.
    + destruct (Z.eqb_spec (time b) (time c)) as [Ht|Hne]; [|auto].
      exfalso. apply Hnotin. rewrite Ht. now apply list_elem_of_fmap_2.
Qed.

Lemma candleAt_None (t : Z) (l : list CandleData) :
  t ∉ times l → candleAt t l = None.
Proof.
  unfold times, candleAt. induction l as [|b l IH]; simpl; [reflexivity|].
  rewrite not_elem_of_cons. intros [Hne Hnotin].
  destruct (Z.eqb_spec (time b) t); [congruence | auto].
Qed.

End LookupFacts.

(** ** [collect]: the [forEach] loop over [allBars] *)
Section CollectFacts.

Lemma collect_get (t : Z) (l : list CandleData) (m : JsMap.t) :
  JsMap.get t (collect l m) =
  match lastAt t l with Some c => Some c | None => JsMap.get t m end.
Proof.
  unfold collect. revert m.
  induction l as [|b l IH]; intros m; simpl; [reflexivity|].
  rewrite IH, get_set.
  destruct (lastAt t l); [reflexivity|].
  destruct (time b =? t); reflexivity.
Qed.

Lemma collect_NoDup (l : list CandleData) (m : JsMap.t) :
  NoDup (JsMap.keys m) → NoDup (JsMap.keys (collect l m)).
Proof.
  unfold collect. revert m.
  induction l as [|b l IH]; intros m Hnd; simpl; [exact Hnd|].
  apply IH. now apply NoDup_keys_set.
Qed.

Lemma collect_wellKeyed (l : list CandleData) (m : JsMap.t) :
  JsMap.wellKeyed m → JsMap.wellKeyed (collect l m).
Proof.
  unfold collect. revert m.
  induction l as [|b l IH]; intros m Hwk; simpl; [exact Hwk|].
  apply IH. now apply wellKeyed_set.
Qed.

Lemma wellKeyed_times (m : JsMap.t) :
  JsMap.wellKeyed m → times (JsMap.values m) = JsMap.keys m.
Proof.
  unfold JsMap.wellKeyed, times, JsMap.values, JsMap.keys.
  induction 1 as [|kv m Hhd _ IH]; simpl; [reflexivity|].
  now rewrite Hhd, IH.
Qed.

(** The values of the map built from [allBars]: one candle per time, the
    last one [allBars] has for it. *)
Lemma collect_values_elem (l : list CandleData) (c : CandleData) :
  c ∈ JsMap.values (collect l JsMap.empty) ↔ lastAt (time c) l = Some c.
Proof.
  assert (Hnd : NoDup (JsMap.keys (collect l JsMap.empty)))
    by (apply collect_NoDup; constructor).
  assert (Hwk : JsMap.wellKeyed (collect l JsMap.empty))
    by (apply collect_wellKeyed; constructor).
  pose proof (collect_get (time c) l JsMap.empty) as Hget. simpl in Hget.
  split.
  - intros Hin. apply list_elem_of_fmap in Hin as [[k v] [-> Hin]]. simpl in *.
    assert (Hk : time v = k).
    { unfold JsMap.wellKeyed in Hwk. rewrite Forall_forall in Hwk.
      apply (Hwk (k, v)). exact Hin. }
    subst k. apply elem_get_Some in Hin; [|exact Hnd].
    rewrite Hin in Hget. destruct (lastAt (time v) l); congruence.
  - intros Hlast. rewrite Hlast in Hget.
    apply get_Some_elem in Hget.
    change c with (snd (time c, c)). now apply list_elem_of_fmap_2.
Qed.

Lemma collect_values_NoDup (l : list CandleData) :
  NoDup (times (JsMap.values (collect l JsMap.empty))).
Proof.
  rewrite wellKeyed_times by (apply collect_wellKeyed; constructor).
  apply collect_NoDup. constructor.
Qed.

End CollectFacts.

(** ** [sortByTime] *)
Section SortFacts.

#[local] Abbreviation timeLt := (fun a b : CandleData => time a < time b).

Lemma sortInsert_Permutation (x : CandleData) (l : list CandleData) :
  sortInsert x l ≡ₚ x :: l.
Proof.
  induction l as [|y l IH]; simpl; [reflexivity|].
  destruct (0 <? compareTime x y); [|reflexivity].
  rewrite IH. apply Permutation_swap.
Qed.

Lemma sortByTime_Permutation (l : list CandleData) : sortByTime l ≡ₚ l.
Proof.
  unfold sortByTime. induction l as [|x l IH]; simpl; [reflexivity|].
  now rewrite sortInsert_Permutation, IH.
Qed.

Lemma sortInsert_HdRel (x y : CandleData) (l : list CandleData) :
  time y < time x → HdRel timeLt y l → HdRel timeLt y (sortInsert x l).
Proof.
  intros Hyx Hhd. destruct l as [|z l]; simpl.
  - now constructor.
  - destruct (0 <? compareTime x z).
    + inversion Hhd; subst. now constructor.
    + now constructor.
Qed.

Lemma sortInsert_sorted (x : CandleData) (l : list CandleData) :
  strictlyIncreasing l → time x ∉ times l → strictlyIncreasing (sortInsert x l).
Proof.
  unfold strictlyIncreasing, times.
  induction l as [|y l IH]; simpl; intros Hs Hnotin.
  - repeat constructor.
  - apply not_elem_of_cons in Hnotin as [Hne Hnotin].
    apply Sorted_inv in Hs as [Hs Hhd].
    unfold compareTime. destruct (Z.ltb_spec 0 (time x - time y)) as [Hgt|Hle].
    + constructor; [auto|]. apply sortInsert_HdRel; [lia | exact Hhd].
    + constructor; [now constructor|]. constructor. lia.
Qed.

Lemma sortByTime_sorted (l : list CandleData) :
  NoDup (times l) → strictlyIncreasing (sortByTime l).
Proof.
  unfold sortByTime, times.
  induction l as [|x l IH]; simpl; intros Hnd.
  - constructor.
  - apply NoDup_cons in Hnd as [Hnotin Hnd].
    apply sortInsert_sorted; [auto|].
    fold (sortByTime l). unfold times.
    now rewrite (sortByTime_Permutation l).
Qed.

(** Sorting a series that is already strictly increasing returns it. *)
Lemma sortByTime_fixed (l : list CandleData) :
  strictlyIncreasing l → sortByTime l = l.
Proof.
  unfold strictlyIncreasing, sortByTime.
  induction l as [|x l IH]; simpl; intros Hs; [reflexivity|].
  apply Sorted_inv in Hs as [Hs Hhd]. rewrite IH by exact Hs.
  destruct l as [|y l]; simpl; [reflexivity|].
  inversion Hhd; subst. unfold compareTime.
  destruct (Z.ltb_spec 0 (time x - time y)); [lia | reflexivity].
Qed.

#[local] Instance timeLt_trans : Transitive timeLt.
Proof. intros a b c; lia. Qed.

#[local] Instance timeLt_antisymm : AntiSymm (=) timeLt.
Proof. intros a b; lia. Qed.

Lemma strictlyIncreasing_unique (l1 l2 : list CandleData) :
  strictlyIncreasing l1 → strictlyIncreasing l2 → l1 ≡ₚ l2 → l1 = l2.
Proof. unfold strictlyIncreasing. apply Sorted_unique; apply _. Qed.

Lemma strictlyIncreasing_NoDup (l : list CandleData) :
  strictlyIncreasing l → NoDup (times l).
Proof.
  unfold strictlyIncreasing, times. intros Hs.
  apply Sorted_StronglySorted in Hs; [|apply _].
  induction Hs as [|x l Hs IH Hall]; simpl; [constructor|].
  apply NoDup_cons. split; [|exact IH].
  intros Hin. apply list_elem_of_fmap in Hin as [y [Hxy Hin]].
  rewrite Forall_forall in Hall. specialize (Hall y Hin). simpl in Hall. lia.
Qed.

Lemma strictlyIncreasing_filter (P : CandleData → bool) (l : list CandleData) :
  strictlyIncreasing l → strictlyIncreasing (List.filter P l).
Proof.
  unfold strictlyIncreasing. intros Hs.
  apply Sorted_StronglySorted in Hs; [|apply _].
  apply StronglySorted_Sorted.
  induction Hs as [|x l Hs IH Hall]; simpl; [constructor|].
  destruct (P x); [|exact IH].
  constructor; [exact IH|].
  rewrite Forall_forall in *. intros y Hy.
  apply Hall. apply list_elem_of_In. apply list_elem_of_In in Hy.
  apply filter_In in Hy. tauto.
Qed.

End SortFacts.

(** ** [mergeBars] *)
Section MergeFacts.

(** The merged series holds, for each time, the last candle that
    [newBars ++ existingBars] has for it. *)
Lemma mergeBars_elem (newBars existingBars : list CandleData) (c : CandleData) :
  c ∈ mergeBars newBars existingBars ↔
  lastAt (time c) (newBars ++ existingBars) = Some c.
Proof.
  unfold mergeBars. rewrite sortByTime_Permutation. apply collect_values_elem.
Qed.

Lemma mergeBars_sorted (newBars existingBars : list CandleData) :
  strictlyIncreasing (mergeBars newBars existingBars).
Proof. unfold mergeBars. apply sortByTime_sorted, collect_values_NoDup. Qed.

Lemma mergeBars_NoDup (newBars existingBars : list CandleData) :
  NoDup (times (mergeBars newBars existingBars)).
Proof. apply strictlyIncreasing_NoDup, mergeBars_sorted. Qed.

Lemma mergeBars_times (newBars existingBars : list CandleData) (t : Z) :
  t ∈ times (mergeBars newBars existingBars) ↔
  t ∈ times newBars ∨ t ∈ times existingBars.
Proof.
  split.
  - intros Hin. apply list_elem_of_fmap in Hin as [c [-> Hin]].
    apply mergeBars_elem, lastAt_Some in Hin as [Hin _].
    apply elem_of_app in Hin as [Hin|Hin]; [left|right];
      now apply list_elem_of_fmap_2.
  - intros Hin.
    destruct (lastAt t (newBars ++ existingBars)) as [c|] eqn:Hlast.
    + pose proof (lastAt_Some _ _ _ Hlast) as [_ Ht]. subst t.
      apply list_elem_of_fmap_2. now apply mergeBars_elem.
    + apply lastAt_None in Hlast. exfalso. apply Hlast.
      unfold times in *. rewrite fmap_app. apply elem_of_app. exact Hin.
Qed.

Lemma candleAt_mergeBars (newBars existingBars : list CandleData) (t : Z) :
  candleAt t (mergeBars newBars existingBars) =
  match lastAt t existingBars with
  | Some c => Some c
  | None => lastAt t newBars
  end.
Proof.
  rewrite <- lastAt_app.
  destruct (lastAt t (newBars ++ existingBars)) as [c|] eqn:Hlast.
  - pose proof (lastAt_Some _ _ _ Hlast) as [_ Ht]. subst t.
    apply candleAt_unique; [apply mergeBars_NoDup | now apply mergeBars_elem].
  - apply candleAt_None. rewrite mergeBars_times.
    apply lastAt_None in Hlast. unfold times in *.
    rewrite fmap_app, elem_of_app in Hlast. exact Hlast.
Qed.

(** Where the existing series has a candle for a time, that candle
    stays: [existingBars] comes last in [allBars]. *)
Lemma mergeBars_existing_wins (newBars existingBars : list CandleData)
    (t : Z) (c : CandleData) :
  lastAt t existingBars = Some c →
  candleAt t (mergeBars newBars existingBars) = Some c.
Proof. intros H. now rewrite candleAt_mergeBars, H. Qed.

(** A time the existing series lacks takes the incoming candle. *)
Lemma mergeBars_new_time (newBars existingBars : list CandleData) (t : Z) :
  t ∉ times existingBars →
  candleAt t (mergeBars newBars existingBars) = lastAt t newBars.
Proof. intros H. apply lastAt_None in H. now rewrite candleAt_mergeBars, H. Qed.

Lemma mergeAll_sorted (updates : list (list CandleData)) (series : list CandleData) :
  strictlyIncreasing series → strictlyIncreasing (mergeAll updates series).
Proof.
  unfold mergeAll. revert series.
  induction updates as [|u us IH]; intros series Hs; simpl; [exact Hs|].
  apply IH, mergeBars_sorted.
Qed.

End MergeFacts.

(** C1, at the input of the specification's example: the series holds
    [{time:100, close:10}] and [{time:100, close:20}] is merged into it;
    [mergeBars] returns the series with the earlier candle, [close = 10],
    at [time = 100], and not the incoming one. *)
Theorem mergeBars_same_time_keeps_existing :
  let first := mergeBars [flat 100 10] [] in
  let second := mergeBars [flat 100 20] first in
  candleAt 100 second = Some (flat 100 10) ∧
  candleAt 100 second ≠ Some (flat 100 20).
Proof.
  cbv zeta. split.
  - vm_compute. reflexivity.
  - vm_compute. intros H. discriminate H.
Qed.


(** ** The validity filters *)
Section ValidityFacts.
Import Exn History.

Lemma isValidBar_spec (c : CandleData) :
  isValidBar c = true ↔
  0 < time c ∧ isFinite (open c) = true ∧ isFinite (high c) = true
    ∧ isFinite (low c) = true ∧ isFinite (close c) = true.
Proof.
  unfold isValidBar. rewrite !andb_true_iff, Z.ltb_lt. tauto.
Qed.

Lemma validBars_elem (bars : list CandleData) (c : CandleData) :
  c ∈ validBars bars ↔ c ∈ bars ∧ isValidBar c = true.
Proof.
  unfold validBars. rewrite !list_elem_of_In, filter_In. tauto.
Qed.

Lemma normalizeCandle_spec (kline : RawKline) :
  Legacy.normalizeCandle kline =
  if isValidBar (candleOfKline kline) then Some (candleOfKline kline) else None.
Proof.
  unfold Legacy.normalizeCandle, isValidBar, candleOfKline. simpl.
  destruct (isFinite (k_o kline)), (isFinite (k_h kline)),
    (isFinite (k_l kline)), (isFinite (k_c kline)); simpl;
    rewrite ?andb_false_r; try reflexivity.
  rewrite andb_true_r.
  destruct (Z.leb_spec (k_t kline / 1000) 0), (Z.ltb_spec 0 (k_t kline / 1000));
    try reflexivity; lia.
Qed.

Lemma keepNonNull_valid (rows : list KlineElem) (os : list (option CandleData)) :
  mapM Legacy.normalizeElem rows = Ok os →
  Forall (fun c => isValidBar c = true) (Legacy.keepNonNull os).
Proof.
  revert os. induction rows as [|e rows IH]; simpl; intros os H.
  - injection H as <-. constructor.
  - destruct e as [k|]; simpl in H; [|discriminate].
    destruct (mapM Legacy.normalizeElem rows) as [os'|]; simpl in H; [|discriminate].
    injection H as <-. unfold Legacy.keepNonNull. simpl.
    apply Forall_app. split; [|now apply IH].
    rewrite normalizeCandle_spec.
    destruct (isValidBar (candleOfKline k)) eqn:Hv; repeat constructor. exact Hv.
Qed.

(** The earlier variant's history fetch returns valid candles only. *)
Lemma legacy_fetchHistory_valid (reply : HttpReply) :
  ∃ candles, Legacy.fetchHistory reply = Ok candles
             ∧ Forall (fun c => isValidBar c = true) candles.
Proof.
  unfold Legacy.fetchHistory, Legacy.fetchHistory_try.
  destruct reply as [|ok body]; simpl; [eexists; split; [reflexivity | constructor]|].
  destruct ok; simpl; [|eexists; split; [reflexivity | constructor]].
  destruct body as [| |rows]; simpl;
    try (eexists; split; [reflexivity | constructor]).
  destruct (mapM Legacy.normalizeElem rows) as [os|] eqn:Hm; simpl.
  - eexists; split; [reflexivity | now apply (keepNonNull_valid rows)].
  - eexists; split; [reflexivity | constructor].
Qed.

End ValidityFacts.

(** The range relation [low <= open, close <= high] is not part of any
    filter: a candle whose low lies above its high passes [validBars],
    [normalizeCandle] and [fetchBinanceCandles] unchanged. *)
Lemma validity_filter_admits_inverted_range :
  ohlcInRange Samples.invertedCandle = false ∧
  validBars [Samples.invertedCandle] = [Samples.invertedCandle] ∧
  Legacy.normalizeCandle Samples.invertedKline = Some Samples.invertedCandle ∧
  History.fetchBinanceCandles
    (History.Reply true (History.BodyArray [History.Row Samples.invertedKline]))
  = Exn.Ok [Samples.invertedCandle].
Proof. repeat split; vm_compute; reflexivity. Qed.

(** C5, at a record the code lets through: a kline with open time 0 ms and
    finite prices.  [fetchBinanceCandles] returns its candle, with
    [time = 0], and the live handler merges it into the series, although
    [isValidBar] and [normalizeCandle] both reject it; and a SideSwap daily
    record with [high = NaN] is returned by [doRequest] as it is. *)
Theorem time_zero_record_reaches_series :
  History.fetchBinanceCandles
    (History.Reply true (History.BodyArray [History.Row Samples.zeroTimeKline]))
  = Exn.Ok [flat 0 1] ∧
  History.onMessageBinance (History.MsgKline Samples.zeroTimeKline) [flat 100 1]
  = [flat 0 1; flat 100 1] ∧
  isValidBar (flat 0 1) = false ∧
  Legacy.normalizeCandle Samples.zeroTimeKline = None ∧
  fst (SideSwap.doRequest
         (SideSwap.Opened
            [(120, SideSwap.EvMessage (SideSwap.Data [SideSwap.Daily Samples.nanHighDaily]))]))
  = [mkCandle 1700006400 (of_Z 1) NaN (of_Z 1) (of_Z 1)].
Proof. repeat split; vm_compute; reflexivity. Qed.

(** ** Failure handling of the fetches *)
Section FetchFacts.
Import Exn History SideSwap.

Lemma mapM_throws {A B : Type} (f : A → Result B) (pre post : list A) (x : A) :
  f x = Throw → mapM f (pre ++ x :: post) = Throw.
Proof.
  intros Hx. induction pre as [|y pre IH]; simpl.
  - now rewrite Hx.
  - rewrite IH. now destruct (f y).
Qed.

Lemma tryCatch_returns {A : Type} (body : Result A) (handler : A) :
  returns (tryCatch body handler).
Proof. destruct body as [a|]; simpl; [now exists a | now exists handler]. Qed.

Lemma fetchBinanceCandles_returns (reply : HttpReply) :
  returns (fetchBinanceCandles reply).
Proof. apply tryCatch_returns. Qed.

Lemma fetchHistory_returns (period : Cache.TimePeriod) (reply : HttpReply)
    (startTimeMs endTimeMs : Z) :
  returns (fetchHistory period reply startTimeMs endTimeMs).
Proof.
  unfold fetchHistory. destruct (Cache.period_eqb period Cache.P1d).
  - now exists [].
  - apply fetchBinanceCandles_returns.
Qed.

(** Whatever comes back, the candles [fetchBinanceCandles] returns have
    finite prices. *)
Lemma fetchBinanceCandles_finite (reply : HttpReply) (candles : list CandleData) :
  fetchBinanceCandles reply = Ok candles →
  Forall (fun c => finiteOHLC c = true) candles.
Proof.
  unfold fetchBinanceCandles, fetchBinanceCandles_try.
  destruct reply as [|ok body]; simpl.
  { intros H; injection H as <-; constructor. }
  destruct ok; simpl; [|intros H; injection H as <-; constructor].
  destruct body as [| |rows]; simpl; try (intros H; injection H as <-; constructor).
  destruct (mapM klineToCandle rows) as [cs|]; simpl;
    intros H; injection H as <-; [|constructor].
  apply Forall_forall. intros c Hc. apply list_elem_of_In, filter_In in Hc. tauto.
Qed.

Lemma settle_bounded (events : list (Z * WsEvent)) :
  snd (settle events) ≤ timeoutMs.
Proof.
  induction events as [|[at_ms ev] rest IH]; simpl; [lia|].
  destruct (Z.leb_spec timeoutMs at_ms); simpl; [lia|].
  destruct ev; simpl; try exact IH; lia.
Qed.

Lemma doRequest_bounded (s : Socket) : snd (doRequest s) ≤ timeoutMs.
Proof.
  destruct s as [|events]; simpl; [unfold timeoutMs; lia | apply settle_bounded].
Qed.

End FetchFacts.

(** C8: the history fetch fails soft.  [fetchBinanceCandles] always
    returns and never throws; on a network error (a rejected or timed-out
    [fetch]), a non-2xx status, a body that is not JSON, a body that is not
    an array or an array with an element that cannot be read, it returns
    the empty series.  [doRequest] resolves to the empty series when the
    socket cannot be built, when nothing settles it before the 5 s timer,
    on a socket error, and on a payload that is unparsable, reports no
    market, has no data array or has an unreadable record. *)
Theorem history_fetch_fails_soft :
  (∀ reply, Exn.returns (History.fetchBinanceCandles reply)) ∧
  (∀ period reply startTimeMs endTimeMs,
     Exn.returns (History.fetchHistory period reply startTimeMs endTimeMs)) ∧
  History.fetchBinanceCandles History.NetworkError = Exn.Ok [] ∧
  (∀ body, History.fetchBinanceCandles (History.Reply false body) = Exn.Ok []) ∧
  History.fetchBinanceCandles (History.Reply true History.BodyInvalid) = Exn.Ok [] ∧
  History.fetchBinanceCandles (History.Reply true History.BodyNonArray) = Exn.Ok [] ∧
  (∀ pre post,
     History.fetchBinanceCandles
       (History.Reply true (History.BodyArray (pre ++ History.NotIndexable :: post)))
     = Exn.Ok []) ∧
  SideSwap.doRequest SideSwap.CtorThrows = ([], 0) ∧
  SideSwap.doRequest (SideSwap.Opened []) = ([], SideSwap.timeoutMs) ∧
  (∀ (late : nat) ev rest,
     SideSwap.doRequest
       (SideSwap.Opened ((SideSwap.timeoutMs + Z.of_nat late, ev) :: rest))
     = ([], SideSwap.timeoutMs)) ∧
  (∀ at_ms rest,
     fst (SideSwap.doRequest (SideSwap.Opened ((at_ms, SideSwap.EvError) :: rest))) = []) ∧
  (∀ at_ms rest,
     fst (SideSwap.doRequest
            (SideSwap.Opened ((at_ms, SideSwap.EvMessage SideSwap.PayloadUnparsable) :: rest)))
     = []) ∧
  (∀ at_ms rest,
     fst (SideSwap.doRequest
            (SideSwap.Opened ((at_ms, SideSwap.EvMessage SideSwap.CantFindMarket) :: rest)))
     = []) ∧
  (∀ at_ms rest,
     fst (SideSwap.doRequest
            (SideSwap.Opened ((at_ms, SideSwap.EvMessage SideSwap.DataMissing) :: rest)))
     = []) ∧
  (∀ at_ms pre post rest,
     fst (SideSwap.doRequest
            (SideSwap.Opened
               ((at_ms, SideSwap.EvMessage (SideSwap.Data (pre ++ SideSwap.Unreadable :: post)))
                  :: rest)))
     = []).
Proof.
  repeat apply conj; try reflexivity.
  - apply fetchBinanceCandles_returns.
  - apply fetchHistory_returns.
  - intros pre post. unfold History.fetchBinanceCandles, History.fetchBinanceCandles_try.
    simpl. now rewrite mapM_throws.
  - intros late ev rest. simpl.
    destruct (Z.leb_spec SideSwap.timeoutMs (SideSwap.timeoutMs + Z.of_nat late));
      [reflexivity | lia].
  - intros at_ms rest. simpl. now destruct (SideSwap.timeoutMs <=? at_ms).
  - intros at_ms rest. simpl. now destruct (SideSwap.timeoutMs <=? at_ms).
  - intros at_ms rest. simpl. now destruct (SideSwap.timeoutMs <=? at_ms).
  - intros at_ms rest. simpl. now destruct (SideSwap.timeoutMs <=? at_ms).
  - intros at_ms pre post rest. simpl.
    destruct (SideSwap.timeoutMs <=? at_ms); [reflexivity|]. simpl.
    now rewrite mapM_throws.
Qed.

(** ** Reconnection backoff *)
Section BackoffFacts.
Import LiveStream.

Lemma reconnectDelay_le_cap (attempt : nat) : reconnectDelay attempt ≤ capMs.
Proof. unfold reconnectDelay. apply Z.le_min_l. Qed.

Lemma reconnectDelay_ge (attempt : nat) : 2 * baseMs ≤ reconnectDelay (S attempt).
Proof.
  unfold reconnectDelay, baseMs, capMs.
  rewrite Nat2Z.inj_succ, Z.pow_succ_r by lia.
  assert (0 < 2 ^ Z.of_nat attempt) by (apply Z.pow_pos_nonneg; lia).
  apply Z.min_glb; lia.
Qed.

(** [n] disconnects in a row, with no open in between, take the counter
    from [a] to [a + n]. *)
Lemma run_closes (a n : nat) :
  run (mkConn false a) (repeat WsClose (S n)) =
  (mkConn false (a + S n), Some (reconnectDelay (a + S n))).
Proof.
  revert a. induction n as [|n IH]; intros a.
  - simpl. unfold onclose. simpl. now rewrite Nat.add_1_r.
  - change (repeat WsClose (S (S n))) with (WsClose :: repeat WsClose (S n)).
    change (run (mkConn false a) (WsClose :: repeat WsClose (S n)))
      with (run (fst (handle (mkConn false a) WsClose)) (repeat WsClose (S n))).
    simpl handle. unfold onclose. simpl fst.
    rewrite IH. now rewrite Nat.add_succ_comm.
Qed.

End BackoffFacts.

(** The first disconnect after a successful connection schedules a
    reconnect after 1000 ms, not after the base delay of 500 ms: the counter
    is incremented before the delay is computed. *)
Lemma reconnect_after_open_is_twice_base :
  snd (LiveStream.run LiveStream.initial
         [LiveStream.WsClose; LiveStream.WsClose; LiveStream.WsOpen; LiveStream.WsClose])
  = Some 1000 ∧
  LiveStream.baseMs = 500 ∧
  LiveStream.reconnectDelay 0 = LiveStream.baseMs ∧
  (1000 =? LiveStream.baseMs) = false.
Proof. repeat split; vm_compute; reflexivity. Qed.

(** C6, as the code has it: after [n + 1] disconnects in a row the delay
    handed to [setTimeout] is [min(15000, 500 * 2^(n+1))], which never
    exceeds 15000 ms; every open sets the counter to 0, so the first
    disconnect after a successful connection waits
    [min(15000, 500 * 2^1) = 1000] ms, the shortest delay the code
    schedules. *)
Theorem reconnect_delay_bounded_and_reset (a n : nat) :
  LiveStream.run (LiveStream.onopen (LiveStream.mkConn false a))
    (repeat LiveStream.WsClose (S n))
  = (LiveStream.mkConn false (S n), Some (LiveStream.reconnectDelay (S n))) ∧
  LiveStream.reconnectDelay (S n) = Z.min 15000 (500 * 2 ^ Z.of_nat (S n)) ∧
  1000 ≤ LiveStream.reconnectDelay (S n) ≤ 15000 ∧
  LiveStream.attempt (fst (LiveStream.handle (LiveStream.mkConn false a) LiveStream.WsOpen)) = 0%nat ∧
  snd (LiveStream.run (LiveStream.mkConn false a) [LiveStream.WsOpen; LiveStream.WsClose])
  = Some 1000.
Proof.
  repeat apply conj; try reflexivity.
  - change (LiveStream.onopen (LiveStream.mkConn false a))
      with (LiveStream.mkConn false 0).
    now rewrite run_closes.
  - apply (reconnectDelay_ge n).
  - apply (reconnectDelay_le_cap (S n)).
Qed.

(** ** Cache *)
Section CacheFacts.
Import Cache.

Lemma getCachedBars_stale (now timestamp : Z) (symbol : string) (period : TimePeriod)
    (bars : list CandleData) (store : gmap string StoredItem) :
  store !! cacheKey symbol period = Some (Snapshot bars timestamp) →
  freshnessWindowMs < now - timestamp →
  getCachedBars now symbol period store = ([], delete (cacheKey symbol period) store).
Proof.
  intros Hlook Hold. unfold getCachedBars. rewrite Hlook.
  destruct (Z.ltb_spec freshnessWindowMs (now - timestamp)); [reflexivity | lia].
Qed.

Lemma getCachedBars_fresh (now timestamp : Z) (symbol : string) (period : TimePeriod)
    (bars : list CandleData) (store : gmap string StoredItem) :
  store !! cacheKey symbol period = Some (Snapshot bars timestamp) →
  now - timestamp ≤ freshnessWindowMs →
  getCachedBars now symbol period store = (bars, store).
Proof.
  intros Hlook Hfresh. unfold getCachedBars. rewrite Hlook.
  destruct (Z.ltb_spec freshnessWindowMs (now - timestamp)); [lia | reflexivity].
Qed.

Lemma getCachedBars_absent (now : Z) (symbol : string) (period : TimePeriod)
    (store : gmap string StoredItem) :
  store !! cacheKey symbol period = None →
  getCachedBars now symbol period store = ([], store).
Proof. intros Hlook. unfold getCachedBars. now rewrite Hlook. Qed.

Lemma cacheBars_lookup (now : Z) (symbol : string) (period : TimePeriod)
    (bars : list CandleData) (store : gmap string StoredItem) :
  cacheBars now symbol bars period store !! cacheKey symbol period
  = Some (Snapshot bars now).
Proof. unfold cacheBars. apply lookup_insert_eq. Qed.

End CacheFacts.

(** C7: cache freshness.  When the store holds an entry for the key, a
    read made more than one hour (3600000 ms) after the entry's timestamp
    returns the empty series and leaves the store without the entry, so the
    next read misses as well; a read made within the hour returns the
    stored bars and leaves the store as it was. *)
Theorem getCachedBars_freshness (now timestamp : Z) (symbol : string)
    (period : Cache.TimePeriod) (bars : list CandleData)
    (store : gmap string Cache.StoredItem) :
  store !! Cache.cacheKey symbol period = Some (Cache.Snapshot bars timestamp) →
  (now - timestamp > 3600000 →
     Cache.getCachedBars now symbol period store
     = ([], delete (Cache.cacheKey symbol period) store)
     ∧ snd (Cache.getCachedBars now symbol period store) !! Cache.cacheKey symbol period = None
     ∧ ∀ later, fst (Cache.getCachedBars later symbol period
                       (snd (Cache.getCachedBars now symbol period store))) = [])
  ∧ (now - timestamp ≤ 3600000 →
     Cache.getCachedBars now symbol period store = (bars, store)).
Proof.
  intros Hlook. split.
  - intros Hold.
    assert (Hget : Cache.getCachedBars now symbol period store
                   = ([], delete (Cache.cacheKey symbol period) store))
      by (apply (getCachedBars_stale now timestamp symbol period bars); [exact Hlook|];
          unfold Cache.freshnessWindowMs; lia).
    rewrite Hget. simpl. repeat split.
    + apply lookup_delete_eq.
    + intros later. rewrite getCachedBars_absent; [reflexivity | apply lookup_delete_eq].
  - intros Hfresh. apply (getCachedBars_fresh now timestamp symbol period bars);
      [exact Hlook | unfold Cache.freshnessWindowMs; lia].
Qed.

Lemma getCachedBars_freshness_witness :
  Cache.getCachedBars 3601001 "btcusdt" Cache.P1h Samples.warmStore
  = ([], delete (Cache.cacheKey "btcusdt" Cache.P1h) Samples.warmStore)
  ∧ Cache.getCachedBars 3601000 "btcusdt" Cache.P1h Samples.warmStore
    = (Samples.cachedSeries, Samples.warmStore).
Proof.
  split.
  - apply (getCachedBars_freshness 3601001 1000 "btcusdt" Cache.P1h
             Samples.cachedSeries Samples.warmStore).
    + apply cacheBars_lookup.
    + lia.
  - apply (getCachedBars_freshness 3601000 1000 "btcusdt" Cache.P1h
             Samples.cachedSeries Samples.warmStore).
    + apply cacheBars_lookup.
    + lia.
Defined.

(** ** The retry loop of the daily-candle fetch *)
Section RetryFacts.
Import SideSwap.

Lemma requestsOf_failedRounds (pair : Pair) (attempt k : nat) :
  length (requestsOf (failedRounds pair attempt k)) = (2 * k)%nat.
Proof.
  revert attempt. induction k as [|k IH]; intros attempt; simpl; [reflexivity|].
  rewrite IH. lia.
Qed.

(** The loop makes some number [k] of failed iterations and then either
    runs out of iterations, with no candles, or stops at a request that
    returned candles. *)
Lemma attemptLoop_shape (net : Network) (remaining attempt sent : nat) (pair : Pair) :
  ∃ (k : nat) (tail : list Action),
    (k ≤ remaining)%nat ∧
    snd (attemptLoop net remaining attempt sent pair)
    = failedRounds pair attempt k ++ tail ∧
    ((k = remaining ∧ tail = []
        ∧ fst (attemptLoop net remaining attempt sent pair) = ([], pair)) ∨
     ((k < remaining)%nat
        ∧ fst (fst (attemptLoop net remaining attempt sent pair)) ≠ []
        ∧ (tail = [Request pair] ∨ tail = [Request pair; Request (swapPair pair)]))).
Proof.
  revert attempt sent.
  induction remaining as [|remaining IH]; intros attempt sent.
  - exists 0%nat, []. simpl. split; [lia|]. split; [reflexivity|]. left. auto.
  - simpl.
    destruct (fst (doRequest (net sent pair))) as [|c1 primary] eqn:Hp; simpl.
    + destruct (fst (doRequest (net (S sent) (swapPair pair)))) as [|c2 swapped] eqn:Hs;
        simpl.
      * destruct (IH (S attempt) (S (S sent))) as (k & tail & Hk & Hacts & Hcase).
        destruct (attemptLoop net remaining (S attempt) (S (S sent)) pair)
          as [[candles pair'] actions] eqn:Hloop.
        simpl in *. exists (S k), tail. split; [lia|]. split.
        { simpl. now rewrite Hacts. }
        destruct Hcase as [(-> & -> & Hres)|(Hlt & Hne & Htail)].
        { left. auto. }
        { right. split; [lia|]. split; assumption. }
      * exists 0%nat, [Request pair; Request (swapPair pair)].
        split; [lia|]. split; [reflexivity|]. right.
        split; [lia|]. split; [discriminate | now right].
    + exists 0%nat, [Request pair].
      split; [lia|]. split; [reflexivity|]. right.
      split; [lia|]. split; [discriminate | now left].
Qed.

Lemma attemptLoop_all_fail (net : Network) (remaining attempt sent : nat) (pair : Pair) :
  (∀ n p, fst (doRequest (net n p)) = []) →
  attemptLoop net remaining attempt sent pair
  = ([], pair, failedRounds pair attempt remaining).
Proof.
  intros Hfail. revert attempt sent.
  induction remaining as [|remaining IH]; intros attempt sent; simpl; [reflexivity|].
  rewrite !Hfail. simpl. now rewrite IH.
Qed.

Lemma backoffDelay_le (attempt : nat) : 500 ≤ backoffDelay attempt ≤ 4000.
Proof.
  unfold backoffDelay.
  assert (0 < 2 ^ Z.of_nat attempt) by (apply Z.pow_pos_nonneg; lia).
  split; [apply Z.min_glb; lia | apply Z.le_min_l].
Qed.

End RetryFacts.

(** C10: the daily-candle fetch is bounded.  Each request resolves within
    5000 ms, and to the empty list when the timer fires first.  The loop
    runs some [k <= 5] failed iterations, each one a request for the pair,
    a request for the swapped pair and a wait of [min(4000, 500 * 2^attempt)]
    ms, and then either has used all 5 iterations and returns the empty
    list, or stops at the request that returned candles; so it makes at
    most 10 requests.  When every request comes back empty it returns the
    empty list after exactly 5 iterations. *)
Theorem fetchSideSwapDailyCandles_bounded
    (resolved : option SideSwap.Pair) (net : SideSwap.Network)
    (configured : SideSwap.Pair) :
  let pair := match resolved with Some p => p | None => configured end in
  let result := SideSwap.fetchSideSwapDailyCandles resolved net configured in
  (∀ s, snd (SideSwap.doRequest s) ≤ 5000) ∧
  (∀ (late : nat) ev rest,
     SideSwap.doRequest (SideSwap.Opened ((5000 + Z.of_nat late, ev) :: rest)) = ([], 5000)) ∧
  (∀ attempt, SideSwap.backoffDelay attempt = Z.min 4000 (500 * 2 ^ Z.of_nat attempt)) ∧
  (∃ (k : nat) (tail : list SideSwap.Action),
     (k ≤ 5)%nat ∧
     snd result = SideSwap.failedRounds pair 0 k ++ tail ∧
     ((k = 5%nat ∧ tail = [] ∧ fst result = ([], pair)) ∨
      ((k < 5)%nat ∧ fst (fst result) ≠ [] ∧
       (tail = [SideSwap.Request pair] ∨
        tail = [SideSwap.Request pair; SideSwap.Request (SideSwap.swapPair pair)])))) ∧
  (length (SideSwap.requestsOf (snd result)) ≤ 10)%nat ∧
  ((∀ n p, fst (SideSwap.doRequest (net n p)) = []) →
   result = ([], pair, SideSwap.failedRounds pair 0 5)).
Proof.
  intros pair result.
  pose proof (attemptLoop_shape net SideSwap.maxAttempts 0 0 pair) as Hshape.
  change (SideSwap.attemptLoop net SideSwap.maxAttempts 0 0 pair) with result in Hshape.
  split; [apply doRequest_bounded|].
  split.
  { intros late ev rest. simpl.
    destruct (Z.leb_spec SideSwap.timeoutMs (5000 + Z.of_nat late)); [reflexivity|].
    unfold SideSwap.timeoutMs in *. lia. }
  split; [reflexivity|].
  split; [exact Hshape|].
  split.
  - destruct Hshape as (k & tail & Hk & Hacts & Hcase). rewrite Hacts.
    unfold SideSwap.requestsOf. rewrite List.filter_app, length_app.
    fold (SideSwap.requestsOf (SideSwap.failedRounds pair 0 k)).
    rewrite requestsOf_failedRounds.
    unfold SideSwap.maxAttempts in *.
    destruct Hcase as [(-> & -> & _)|(Hlt & _ & [-> | ->])]; simpl; lia.
  - intros Hfail. apply attemptLoop_all_fail. exact Hfail.
Qed.

Lemma fetchSideSwapDailyCandles_bounded_witness :
  SideSwap.fetchSideSwapDailyCandles None Samples.silentNetwork Samples.btcPair
  = ([], Samples.btcPair,
     [SideSwap.Request Samples.btcPair; SideSwap.Request (SideSwap.swapPair Samples.btcPair);
      SideSwap.Sleep 500;
      SideSwap.Request Samples.btcPair; SideSwap.Request (SideSwap.swapPair Samples.btcPair);
      SideSwap.Sleep 1000;
      SideSwap.Request Samples.btcPair; SideSwap.Request (SideSwap.swapPair Samples.btcPair);
      SideSwap.Sleep 2000;
      SideSwap.Request Samples.btcPair; SideSwap.Request (SideSwap.swapPair Samples.btcPair);
      SideSwap.Sleep 4000;
      SideSwap.Request Samples.btcPair; SideSwap.Request (SideSwap.swapPair Samples.btcPair);
      SideSwap.Sleep 4000]).
Proof.
  apply (fetchSideSwapDailyCandles_bounded None Samples.silentNetwork Samples.btcPair).
  intros n p. reflexivity.
Defined.

(** ** Older-edge backfill *)
(** With the oldest candle at [T0] and a request for [T0 - 500], the range
    asked for starts a week before the requested time, at
    [T0 - 500 - 7d], and not at [T0 - 7d]; the new oldest bound is the first
    time the provider's candles bring, here [T0 - 100], which is not below
    [T0 - 500]; and a range that would start more than 30 days back is not
    fetched at all, rather than cut at the horizon. *)
Lemma older_edge_range_and_horizon :
  snd (Sync.loadMoreHistory Samples.olderBars Samples.readyState Samples.nowMs
         (Samples.T0 - 500))
  = Some ((Samples.T0 - 500 - Sync.lookbackStep) * 1000, Samples.T0 * 1000) ∧
  ((Samples.T0 - 500 - Sync.lookbackStep) * 1000 =? (Samples.T0 - Sync.lookbackStep) * 1000)
  = false ∧
  Sync.oldestLoadedTime
    (fst (Sync.loadMoreHistory Samples.recentBar Samples.readyState Samples.nowMs
            (Samples.T0 - 500)))
  = Some (Samples.T0 - 100) ∧
  (Samples.T0 - 100 <? Samples.T0 - 500) = false ∧
  Sync.loadMoreHistory Samples.olderBars Samples.agedState Samples.nowMs (1697840100 - 1)
  = (Samples.agedState, None).
Proof. repeat split; vm_compute; reflexivity. Qed.

(** * Further properties of the code *)

(** ** More on [mergeBars] *)
Section MergeMore.


Lemma lastAt_candleAt (t : Z) (series : list CandleData) :
  NoDup (times series) → lastAt t series = candleAt t series.
Proof.
  intros Hnd. destruct (lastAt t series) as [c|] eqn:Hlast.
  - apply lastAt_Some in Hlast as [Hin <-]. symmetry. now apply candleAt_unique.
  - apply lastAt_None in Hlast. symmetry. now apply candleAt_None.
Qed.

(** A strictly increasing series with the elements of the merge is the
    merge. *)
Lemma mergeBars_characterised (newBars existingBars series : list CandleData) :
  strictlyIncreasing series →
  (∀ c, c ∈ series ↔ lastAt (time c) (newBars ++ existingBars) = Some c) →
  mergeBars newBars existingBars = series.
Proof.
  intros Hs Helem. apply strictlyIncreasing_unique; [apply mergeBars_sorted | exact Hs|].
  apply NoDup_Permutation.
  - apply (NoDup_fmap_1 time), mergeBars_NoDup.
  - apply (NoDup_fmap_1 time). now apply strictlyIncreasing_NoDup.
  - intros c. rewrite mergeBars_elem. symmetry. apply Helem.
Qed.

Lemma set_length (k : Z) (v : CandleData) (m : JsMap.t) :
  (length (JsMap.set k v m) ≤ S (length m))%nat.
Proof.
  induction m as [|[k0 v0] m IH]; simpl; [lia|].
  destruct (k0 =? k); simpl; lia.
Qed.

Lemma collect_length (l : list CandleData) (m : JsMap.t) :
  (length (collect l m) ≤ length l + length m)%nat.
Proof.
  unfold collect. revert m. induction l as [|b l IH]; intros m; simpl; [lia|].
  specialize (IH (JsMap.set (time b) b m)).
  pose proof (set_length (time b) b m). lia.
Qed.

Lemma mergeBars_absorbed (newBars existingBars : list CandleData) :
  strictlyIncreasing existingBars →
  times newBars ⊆ times existingBars →
  mergeBars newBars existingBars = existingBars.
Proof.
  intros Hs Hsub. apply mergeBars_characterised; [exact Hs|].
  pose proof (strictlyIncreasing_NoDup _ Hs) as Hnd.
  intros c. rewrite lastAt_app. split.
  - intros Hin. now rewrite (lastAt_unique _ _ Hnd Hin).
  - destruct (lastAt (time c) existingBars) as [c'|] eqn:Hlast.
    + intros H. injection H as ->. now apply lastAt_Some in Hlast as [Hin _].
    + intros HN. apply lastAt_None in Hlast. exfalso. apply Hlast, Hsub.
      apply lastAt_Some in HN as [Hin _]. now apply list_elem_of_fmap_2.
Qed.

(** A valid candle of a series without repeated times is still there
    after a merge and the validity filter. *)
Lemma merged_valid_keeps (newBars existingBars : list CandleData) (c : CandleData) :
  NoDup (times existingBars) → c ∈ existingBars → isValidBar c = true →
  c ∈ validBars (mergeBars newBars existingBars).
Proof.
  intros Hnd Hin Hv. apply validBars_elem. split; [|exact Hv].
  apply mergeBars_elem. rewrite lastAt_app. now rewrite (lastAt_unique _ _ Hnd Hin).
Qed.

End MergeMore.

(** X1: a merge neither loses nor invents data.  The times of the merged
    series are exactly the times of the two inputs, every merged candle is
    a candle of one of the inputs, and the merged series is no longer than
    the two inputs together. *)
Theorem mergeBars_times_and_origin (newBars existingBars : list CandleData) :
  (∀ t, t ∈ times (mergeBars newBars existingBars)
        ↔ t ∈ times newBars ∨ t ∈ times existingBars) ∧
  mergeBars newBars existingBars ⊆ newBars ++ existingBars ∧
  (length (mergeBars newBars existingBars) ≤ length newBars + length existingBars)%nat.
Proof.
  split; [|split].
  - intros t. apply mergeBars_times.
  - intros c Hc. now apply mergeBars_elem, lastAt_Some in Hc as [Hin _].
  - unfold mergeBars. rewrite (Permutation_length (sortByTime_Permutation _)).
    unfold JsMap.values. rewrite length_map.
    pose proof (collect_length (newBars ++ existingBars) JsMap.empty) as H.
    rewrite length_app in H. simpl in H. lia.
Qed.

(** X2: how [mergeBars] settles a time both sides have.  Against a
    strictly increasing series, the merged series holds for each time the
    candle the series already had, and takes the update's candle (the last
    one, if the update repeats the time) only for a time the series
    lacked. *)
Theorem mergeBars_conflict_rule (newBars existingBars : list CandleData) (t : Z) :
  strictlyIncreasing existingBars →
  candleAt t (mergeBars newBars existingBars) =
  match candleAt t existingBars with
  | Some kept => Some kept
  | None => lastAt t newBars
  end.
Proof.
  intros Hs. rewrite candleAt_mergeBars.
  now rewrite (lastAt_candleAt t existingBars) by now apply strictlyIncreasing_NoDup.
Qed.

Lemma mergeBars_conflict_rule_witness :
  candleAt 160 (mergeBars Samples.mixedUpdate Samples.loadedSeries) = Some (flat 160 11) ∧
  candleAt 220 (mergeBars Samples.mixedUpdate Samples.loadedSeries) = Some (flat 220 12).
Proof.
  assert (Hs : strictlyIncreasing Samples.loadedSeries).
  { repeat constructor. }
  split.
  - apply (mergeBars_conflict_rule Samples.mixedUpdate Samples.loadedSeries 160 Hs).
  - apply (mergeBars_conflict_rule Samples.mixedUpdate Samples.loadedSeries 220 Hs).
Defined.


(** X4: an update that brings no new time changes nothing.  When the
    series is strictly increasing and every time of the update is already
    in it, [mergeBars] returns the series as it was; the empty update is
    the simplest case. *)
Theorem mergeBars_known_times_unchanged (newBars existingBars : list CandleData) :
  strictlyIncreasing existingBars →
  times newBars ⊆ times existingBars →
  mergeBars newBars existingBars = existingBars.
Proof. apply mergeBars_absorbed. Qed.

Lemma mergeBars_known_times_unchanged_witness :
  mergeBars Samples.resentUpdate Samples.loadedSeries = Samples.loadedSeries ∧
  mergeBars [] Samples.loadedSeries = Samples.loadedSeries.
Proof.
  assert (Hs : strictlyIncreasing Samples.loadedSeries).
  { repeat constructor. }
  split.
  - apply (mergeBars_known_times_unchanged Samples.resentUpdate Samples.loadedSeries Hs).
    intros t Ht. vm_compute in Ht. vm_compute.
    apply elem_of_cons in Ht as [->|Ht]; [apply elem_of_cons; right; apply elem_of_cons; now left|].
    apply list_elem_of_singleton in Ht as ->. apply elem_of_cons. now left.
  - apply (mergeBars_known_times_unchanged [] Samples.loadedSeries Hs).
    intros t Ht. now apply elem_of_nil in Ht.
Defined.

(** ** More on the cache *)
Section CacheMore.
Import Cache.

Lemma list_ascii_app (s1 s2 : string) :
  String.list_ascii_of_string (s1 +:+ s2)
  = String.list_ascii_of_string s1 ++ String.list_ascii_of_string s2.
Proof.
  induction s1 as [|a s1 IH]; [reflexivity|].
  change (String a s1 +:+ s2) with (String a (s1 +:+ s2)).
  simpl. now rewrite IH.
Qed.

Lemma list_ascii_inj (s1 s2 : string) :
  String.list_ascii_of_string s1 = String.list_ascii_of_string s2 → s1 = s2.
Proof.
  intros H. rewrite <- (String.string_of_list_ascii_of_string s1),
    <- (String.string_of_list_ascii_of_string s2). now rewrite H.
Qed.

(** Two keys are equal only for the same symbol and the same period. *)
Lemma cacheKey_inj (symbol1 symbol2 : string) (period1 period2 : TimePeriod) :
  cacheKey symbol1 period1 = cacheKey symbol2 period2 →
  symbol1 = symbol2 ∧ period1 = period2.
Proof.
  unfold cacheKey. intros H. apply String.app_inj in H.
  apply (f_equal String.list_ascii_of_string) in H. rewrite !list_ascii_app in H.
  assert (Hp : period1 = period2).
  { apply (f_equal (@rev _)) in H. rewrite !rev_app_distr in H.
    destruct period1, period2; simpl in H; try reflexivity; discriminate H. }
  split; [|exact Hp]. subst period2.
  apply app_inv_tail in H. now apply list_ascii_inj.
Qed.

Lemma getCachedBars_other_key (now : Z) (symbol : string) (period : TimePeriod)
    (store : gmap string StoredItem) (k : string) :
  k ≠ cacheKey symbol period →
  snd (getCachedBars now symbol period store) !! k = store !! k.
Proof.
  intros Hne. unfold getCachedBars.
  destruct (store !! cacheKey symbol period) as [[|bars ts]|]; simpl; try reflexivity.
  destruct (freshnessWindowMs <? now - ts); simpl; [|reflexivity].
  now apply lookup_delete_ne.
Qed.

End CacheMore.

(** X6: entries of different series do not meet.  The key determines the
    symbol and the period, so writing the bars of one (symbol, period)
    does not change what a read of another one returns, and the read and
    the write can be done in either order. *)
Theorem cache_series_are_separate (now later : Z) (symbol1 symbol2 : string)
    (period1 period2 : Cache.TimePeriod) (bars : list CandleData)
    (store : gmap string Cache.StoredItem) :
  (symbol1, period1) ≠ (symbol2, period2) →
  Cache.getCachedBars later symbol2 period2
    (Cache.cacheBars now symbol1 bars period1 store)
  = (fst (Cache.getCachedBars later symbol2 period2 store),
     Cache.cacheBars now symbol1 bars period1
       (snd (Cache.getCachedBars later symbol2 period2 store))).
Proof.
  intros Hne.
  assert (Hk : Cache.cacheKey symbol1 period1 ≠ Cache.cacheKey symbol2 period2).
  { intros Heq. apply cacheKey_inj in Heq as [-> ->]. now apply Hne. }
  unfold Cache.getCachedBars, Cache.cacheBars.
  rewrite lookup_insert_ne by exact Hk.
  destruct (store !! Cache.cacheKey symbol2 period2) as [[|bars2 ts]|]; simpl;
    try reflexivity.
  destruct (Cache.freshnessWindowMs <? later - ts); simpl; [|reflexivity].
  now rewrite delete_insert_ne.
Qed.

Lemma cache_series_are_separate_witness :
  Cache.getCachedBars 2000 "btcusdt" Cache.P1d
    (Cache.cacheBars 1000 "btcusdt" Samples.cachedSeries Cache.P1h ∅)
  = ([], Cache.cacheBars 1000 "btcusdt" Samples.cachedSeries Cache.P1h ∅).
Proof.
  rewrite (cache_series_are_separate 1000 2000 "btcusdt" "btcusdt" Cache.P1h Cache.P1d
             Samples.cachedSeries ∅) by (intros H; discriminate H).
  unfold Cache.getCachedBars. now rewrite lookup_empty.
Defined.

(** X7: a read never adds or alters an entry.  The store a read leaves is
    contained in the store it found and agrees with it on every other
    key; the key itself is removed at most, and only by a read that
    returns nothing. *)
Theorem getCachedBars_only_removes (now : Z) (symbol : string)
    (period : Cache.TimePeriod) (store : gmap string Cache.StoredItem) :
  snd (Cache.getCachedBars now symbol period store) ⊆ store ∧
  delete (Cache.cacheKey symbol period) (snd (Cache.getCachedBars now symbol period store))
  = delete (Cache.cacheKey symbol period) store ∧
  (fst (Cache.getCachedBars now symbol period store) = []
   ∨ snd (Cache.getCachedBars now symbol period store) = store).
Proof.
  unfold Cache.getCachedBars.
  destruct (store !! Cache.cacheKey symbol period) as [[|bars ts]|]; simpl;
    try (split; [reflexivity | split; [reflexivity | now left]]).
  destruct (Cache.freshnessWindowMs <? now - ts); simpl.
  - split; [apply delete_subseteq|]. split; [|now left].
    apply map_eq. intros k.
    destruct (decide (k = Cache.cacheKey symbol period)) as [->|Hne].
    + now rewrite !lookup_delete_eq.
    + now rewrite !lookup_delete_ne by congruence.
  - split; [reflexivity | split; [reflexivity | now right]].
Qed.

(** ** More on the fetches *)
Section FetchMore.
Import Exn History SideSwap.

Lemma mapM_total {A B : Type} (f : A → Result B) (g : A → B) (l : list A) :
  (∀ x, f x = Ok (g x)) → mapM f l = Ok (List.map g l).
Proof.
  intros Hf. induction l as [|x l IH]; simpl; [reflexivity|].
  now rewrite Hf, IH.
Qed.

Lemma mapM_fmap {A B C : Type} (f : B → Result C) (h : A → B) (l : list A) :
  mapM f (List.map h l) = mapM (fun x => f (h x)) l.
Proof.
  induction l as [|x l IH]; simpl; [reflexivity|]. now rewrite IH.
Qed.

#[local] Abbreviation timeLe := (fun a b : CandleData => time a ≤ time b).

End FetchMore.

(** X8: what a readable 2xx response becomes.  When every element of the
    array is a kline, [fetchBinanceCandles] returns the klines with finite
    prices, in the order of the response, and drops the others; each candle
    is stamped with the second that contains the kline's open time. *)
Theorem fetchBinanceCandles_readable_response :
  (∀ klines : list History.RawKline,
     History.fetchBinanceCandles
       (History.Reply true (History.BodyArray (List.map History.Row klines)))
     = Exn.Ok (List.filter finiteOHLC (List.map History.candleOfKline klines))) ∧
  (∀ kline : History.RawKline,
     time (History.candleOfKline kline) * 1000 ≤ History.k_t kline
     < time (History.candleOfKline kline) * 1000 + 1000).
Proof.
  split.
  - intros klines. unfold History.fetchBinanceCandles, History.fetchBinanceCandles_try.
    simpl. rewrite mapM_fmap.
    now rewrite (mapM_total _ History.candleOfKline klines) by reflexivity.
  - intros kline. unfold History.candleOfKline. simpl.
    pose proof (Z.div_mod (History.k_t kline) 1000 ltac:(lia)).
    pose proof (Z.mod_pos_bound (History.k_t kline) 1000 ltac:(lia)). lia.
Qed.

(** X10: the earlier variant's history fetch fails soft as well.  It
    returns the empty series on a network error, a non-2xx status (which it
    throws and catches itself), a body that is not JSON, a body that is not
    an array and an array with an unreadable element; on a readable array it
    returns the klines [normalizeCandle] accepts, in order. *)
Theorem legacy_fetchHistory_fails_soft :
  Legacy.fetchHistory History.NetworkError = Exn.Ok [] ∧
  (∀ body, Legacy.fetchHistory (History.Reply false body) = Exn.Ok []) ∧
  Legacy.fetchHistory (History.Reply true History.BodyInvalid) = Exn.Ok [] ∧
  Legacy.fetchHistory (History.Reply true History.BodyNonArray) = Exn.Ok [] ∧
  (∀ pre post,
     Legacy.fetchHistory
       (History.Reply true (History.BodyArray (pre ++ History.NotIndexable :: post)))
     = Exn.Ok []) ∧
  (∀ klines : list History.RawKline,
     Legacy.fetchHistory
       (History.Reply true (History.BodyArray (List.map History.Row klines)))
     = Exn.Ok (Legacy.keepNonNull (List.map Legacy.normalizeCandle klines))).
Proof.
  repeat apply conj; try reflexivity.
  - intros pre post. unfold Legacy.fetchHistory, Legacy.fetchHistory_try. simpl.
    now rewrite mapM_throws.
  - intros klines. unfold Legacy.fetchHistory, Legacy.fetchHistory_try. simpl.
    rewrite mapM_fmap.
    now rewrite (mapM_total _ Legacy.normalizeCandle klines) by reflexivity.
Qed.

(** ** More on the retry loop and on reconnection *)
Section RetryMore.
Import SideSwap.


End RetryMore.


(** X12: the time the fetch spends in socket requests and waits is at most
    61.5 s: five rounds of two requests of at most 5 s each, and the waits
    of 500, 1000, 2000, 4000 and 4000 ms. *)
Theorem fetchSideSwapDailyCandles_time_bound
    (resolved : option SideSwap.Pair) (net : SideSwap.Network)
    (configured : SideSwap.Pair) :
  SideSwap.elapsed net 0
    (snd (SideSwap.fetchSideSwapDailyCandles resolved net configured))
  ≤ 61500.
Proof.
  unfold SideSwap.fetchSideSwapDailyCandles.
  set (pair := match resolved with Some p => p | None => configured end).
  destruct (attemptLoop_shape net SideSwap.maxAttempts 0 0 pair)
    as (k & tail & Hk & Hacts & Hcase).
  rewrite Hacts. clear Hacts. unfold SideSwap.maxAttempts in *.
  assert (Hb0 : SideSwap.backoffDelay 0 = 500) by reflexivity.
  assert (Hb1 : SideSwap.backoffDelay 1 = 1000) by reflexivity.
  assert (Hb2 : SideSwap.backoffDelay 2 = 2000) by reflexivity.
  assert (Hb3 : SideSwap.backoffDelay 3 = 4000) by reflexivity.
  assert (Hb4 : SideSwap.backoffDelay 4 = 4000) by reflexivity.
  assert (Hreq : ∀ s, snd (SideSwap.doRequest s) ≤ 5000) by apply doRequest_bounded.
  destruct Hcase as [(-> & -> & _)|(Hlt & _ & [-> | ->])];
    do 5 (try destruct k as [|k]); try lia;
    cbn [SideSwap.failedRounds app SideSwap.elapsed];
    rewrite ?Hb0, ?Hb1, ?Hb2, ?Hb3, ?Hb4;
    repeat match goal with
      | |- context [snd (SideSwap.doRequest ?s)] =>
          let H := fresh in
          pose proof (Hreq s) as H;
          generalize dependent (snd (SideSwap.doRequest s)); intros
      end;
    lia.
Qed.

Section ReconnectMore.
Import LiveStream.

Lemma delays_stopped (a : nat) (evs : list ConnEvent) :
  delays (mkConn true a) evs = [].
Proof.
  revert a. induction evs as [|ev evs IH]; intros a; [reflexivity|].
  destruct ev; simpl; apply IH.
Qed.

Lemma delays_app (c : Conn) (l1 l2 : list ConnEvent) :
  delays c (l1 ++ l2) = delays c l1 ++ delays (fst (run c l1)) l2.
Proof.
  revert c. induction l1 as [|ev l1 IH]; intros c; [reflexivity|].
  change ((ev :: l1) ++ l2) with (ev :: (l1 ++ l2)).
  cbn [delays]. rewrite IH.
  assert (Hrun : fst (run c (ev :: l1)) = fst (run (fst (handle c ev)) l1)).
  { destruct l1; reflexivity. }
  rewrite Hrun. now destruct (snd (handle c ev)).
Qed.

Lemma delays_bounded (c : Conn) (evs : list ConnEvent) :
  Forall (fun d => 1000 ≤ d ≤ 15000) (delays c evs).
Proof.
  revert c. induction evs as [|ev evs IH]; intros c; [constructor|].
  cbn [delays]. destruct ev; simpl; try apply IH.
  unfold onclose. destruct (stopped c); simpl; [apply IH|].
  constructor; [|apply IH]. split.
  - apply (reconnectDelay_ge (attempt c)).
  - apply (reconnectDelay_le_cap (S (attempt c))).
Qed.

Lemma delays_closes (a n : nat) :
  delays (mkConn false a) (repeat WsClose n) = List.map reconnectDelay (seq (S a) n).
Proof.
  revert a. induction n as [|n IH]; intros a; [reflexivity|].
  simpl. unfold onclose. simpl. now rewrite IH.
Qed.

End ReconnectMore.

(** X13: every reconnect the live stream schedules waits between 1000 and
    15000 ms, whatever the order of opens, closes and cleanup; [n] closes
    in a row after an open wait [min(15000, 500 * 2^i)] for [i = 1 .. n];
    and once the effect is cleaned up no event schedules a reconnect any
    more. *)
Theorem reconnect_delays_bounded (c : LiveStream.Conn) (a n : nat)
    (before after : list LiveStream.ConnEvent) :
  Forall (fun d => 1000 ≤ d ≤ 15000) (LiveStream.delays c before) ∧
  LiveStream.delays (LiveStream.onopen (LiveStream.mkConn false a))
    (repeat LiveStream.WsClose n)
  = List.map LiveStream.reconnectDelay (seq 1 n) ∧
  LiveStream.delays c (before ++ LiveStream.Cleanup :: after)
  = LiveStream.delays c before.
Proof.
  split; [apply delays_bounded|]. split; [apply delays_closes|].
  rewrite delays_app. cbn [LiveStream.delays LiveStream.handle fst snd].
  rewrite delays_stopped. apply app_nil_r.
Qed.

(** ** More on the backfills, the live handler and the initial load *)
Section SyncMore.
Import Sync.

Lemma strictlyIncreasing_head_least (first : CandleData) (rest : list CandleData) :
  strictlyIncreasing (first :: rest) →
  Forall (fun c => time first ≤ time c) (first :: rest).
Proof.
  unfold strictlyIncreasing. intros Hs.
  apply Sorted_StronglySorted in Hs; [|intros a b c; lia].
  apply StronglySorted_inv in Hs as [_ Hall].
  constructor; [lia|]. eapply Forall_impl; [exact Hall|]. simpl. intros; lia.
Qed.

Lemma validBars_all_valid (bars : list CandleData) :
  Forall (fun c => isValidBar c = true) (validBars bars).
Proof.
  apply Forall_forall. intros c Hc. now apply validBars_elem in Hc as [_ Hv].
Qed.

(** What both backfills do to the series when the fetch brought bars. *)
Lemma merged_series_facts (newBars : list CandleData) (hist : list CandleData) :
  strictlyIncreasing hist →
  strictlyIncreasing (validBars (mergeBars newBars hist))
  ∧ validBars hist ⊆ validBars (mergeBars newBars hist)
  ∧ Forall (fun c => isValidBar c = true) (validBars (mergeBars newBars hist)).
Proof.
  intros Hs. split; [apply strictlyIncreasing_filter, mergeBars_sorted|].
  split; [|apply validBars_all_valid].
  intros c Hc. apply validBars_elem in Hc as [Hin Hv].
  apply merged_valid_keeps; [now apply strictlyIncreasing_NoDup | exact Hin | exact Hv].
Qed.

Lemma validBars_subseteq (bars : list CandleData) : validBars bars ⊆ bars.
Proof. intros c Hc. now apply validBars_elem in Hc as [Hin _]. Qed.

End SyncMore.

Section LiveMore.
Import History.

Lemma mergeBars_single_new (c : CandleData) (prev : list CandleData) :
  strictlyIncreasing prev → time c ∉ times prev →
  mergeBars [c] prev ≡ₚ c :: prev.
Proof.
  intros Hs Hnew. pose proof (strictlyIncreasing_NoDup _ Hs) as Hnd.
  apply NoDup_Permutation.
  - apply (NoDup_fmap_1 time), mergeBars_NoDup.
  - apply (NoDup_fmap_1 time). simpl. apply NoDup_cons. split; assumption.
  - intros x. rewrite mergeBars_elem, lastAt_app, elem_of_cons. split.
    + destruct (lastAt (time x) prev) as [x'|] eqn:Hlast.
      * intros H. injection H as ->. right. now apply lastAt_Some in Hlast as [Hin _].
      * simpl. destruct (time c =? time x); [|discriminate].
        intros H. injection H as ->. now left.
    + intros [->|Hin].
      * apply lastAt_None in Hnew. rewrite Hnew. simpl. now rewrite Z.eqb_refl.
      * now rewrite (lastAt_unique _ _ Hnd Hin).
Qed.

Lemma strictlyIncreasing_snoc (l : list CandleData) (x : CandleData) :
  strictlyIncreasing (l ++ [x]) ↔
  strictlyIncreasing l ∧ match last l with Some y => time y < time x | None => True end.
Proof.
  unfold strictlyIncreasing. induction l as [|a l IH]; simpl.
  - split; [intros _; split; [constructor | exact I] | intros _; repeat constructor].
  - split.
    + intros Hs. apply Sorted_inv in Hs as [Hs Hhd]. apply IH in Hs as [Hs Hlast].
      destruct l as [|b l]; simpl in *.
      * inversion Hhd; subst. split; [repeat constructor | assumption].
      * inversion Hhd; subst. split; [constructor; [exact Hs | now constructor]|].
        exact Hlast.
    + intros [Hs Hlast]. apply Sorted_inv in Hs as [Hs Hhd].
      constructor.
      * apply IH. split; [exact Hs|]. destruct l as [|b l]; [exact I | exact Hlast].
      * destruct l as [|b l]; simpl in *; [now constructor|].
        inversion Hhd; subst. now constructor.
Qed.

End LiveMore.

(** What a live kline with a whole-second time does to the series.  On a
    strictly increasing series the handler returns a strictly increasing
    series that still holds every candle it held, unchanged; the series is either exactly as
    it was (an unparsable message, a message without a kline, a kline with
    a non-finite price, or a kline for a time already present) or the
    series with the kline's candle added at its place. *)
Lemma onMessageBinance_dated (msg : History.LiveMsg) (prev : list CandleData) :
  strictlyIncreasing prev →
  strictlyIncreasing (History.onMessageBinance msg prev)
  ∧ prev ⊆ History.onMessageBinance msg prev
  ∧ (History.onMessageBinance msg prev = prev
     ∨ ∃ k, msg = History.MsgKline k
            ∧ finiteOHLC (History.candleOfKline k) = true
            ∧ (time (History.candleOfKline k) ∉ times prev)
            ∧ History.onMessageBinance msg prev ≡ₚ (History.candleOfKline k :: prev)).
Proof.
  intros Hs.
  assert (Hself : prev ⊆ prev) by (intros x Hx; exact Hx).
  assert (Hsame : strictlyIncreasing prev ∧ prev ⊆ prev
                  ∧ (prev = prev ∨ ∃ k, msg = History.MsgKline k
            ∧ finiteOHLC (History.candleOfKline k) = true
            ∧ (time (History.candleOfKline k) ∉ times prev)
            ∧ prev ≡ₚ (History.candleOfKline k :: prev)))
    by (split; [exact Hs | split; [exact Hself | now left]]).
  destruct msg as [| |k]; [exact Hsame ..|]. clear Hsame.
  unfold History.onMessageBinance. cbv zeta.
  set (c := History.candleOfKline k).
  destruct (isFinite (open c)) eqn:Ho, (isFinite (high c)) eqn:Hh,
    (isFinite (low c)) eqn:Hl, (isFinite (close c)) eqn:Hc; cbn [negb orb];
    try (split; [exact Hs | split; [exact Hself | now left]]).
  destruct (decide (time c ∈ times prev)) as [Hin|Hnew].
  - rewrite mergeBars_absorbed;
      [split; [exact Hs | split; [exact Hself | now left]] | exact Hs|].
    intros t Ht. apply list_elem_of_singleton in Ht as ->. exact Hin.
  - pose proof (mergeBars_single_new c prev Hs Hnew) as Hperm.
    split; [apply mergeBars_sorted|]. split.
    + intros x Hx. rewrite Hperm. apply elem_of_cons. now right.
    + right. exists k. split; [reflexivity|]. split; [|split; assumption].
      unfold finiteOHLC. fold c. now rewrite Ho, Hh, Hl, Hc.
Qed.

(** ** Order on numbers, [Math.max] and [Math.min] *)
Section NumberFacts.

Lemma SFcompare_refl (x : number) : isNaN x = false → SFcompare x x = Some Eq.
Proof.
  destruct x as [s|s| |s m e]; simpl; intros H; try discriminate; try reflexivity.
  - now destruct s.
  - destruct s; rewrite Z.compare_refl;
      change (Pos.compare_cont Eq m m) with (Pos.compare m m);
      now rewrite Pos.compare_refl.
Qed.

Lemma SFcompare_antisym (x y : number) :
  SFcompare y x = option_map CompOpp (SFcompare x y).
Proof.
  destruct x as [s1|s1| |s1 m1 e1], y as [s2|s2| |s2 m2 e2]; simpl;
    try reflexivity; try (now destruct s1); try (now destruct s2);
    try (now destruct s1, s2).
  destruct s1, s2; simpl; try reflexivity;
    rewrite (Z.compare_antisym e1 e2);
    change (Pos.compare_cont Eq m2 m1) with (Pos.compare m2 m1);
    change (Pos.compare_cont Eq m1 m2) with (Pos.compare m1 m2);
    rewrite (Pos.compare_antisym m1 m2);
    destruct (e1 ?= e2); simpl; try reflexivity;
    now destruct (m1 ?= m2)%positive.
Qed.

Lemma leb_not_NaN (a b : number) :
  leb a b = true → isNaN a = false ∧ isNaN b = false.
Proof.
  unfold leb, SFleb. destruct a, b; simpl; try discriminate; auto.
Qed.

Lemma leb_refl (a : number) : isNaN a = false → leb a a = true.
Proof. intros H. unfold leb, SFleb. now rewrite SFcompare_refl. Qed.

Lemma leb_of_not_ltb (a b : number) :
  isNaN a = false → isNaN b = false → SFltb a b = false → leb b a = true.
Proof.
  intros Ha Hb. unfold leb, SFleb, SFltb. rewrite (SFcompare_antisym a b).
  destruct (SFcompare a b) as [[| |]|] eqn:Hc; simpl; try reflexivity; try discriminate.
  destruct a, b; simpl in *; discriminate.
Qed.

Lemma leb_of_ltb (a b : number) : SFltb a b = true → leb a b = true.
Proof.
  unfold leb, SFleb, SFltb. now destruct (SFcompare a b) as [[| |]|].
Qed.

Ltac order_cases :=
  repeat match goal with
    | H : context [Pos.compare_cont Eq ?m ?n] |- _ =>
        change (Pos.compare_cont Eq m n) with (Pos.compare m n) in H
    | |- context [Pos.compare_cont Eq ?m ?n] =>
        change (Pos.compare_cont Eq m n) with (Pos.compare m n)
    end;
  repeat match goal with
    | H : context [Z.compare ?a ?b] |- _ => destruct (Z.compare_spec a b)
    | |- context [Z.compare ?a ?b] => destruct (Z.compare_spec a b)
    end;
  repeat match goal with
    | H : context [Pos.compare ?a ?b] |- _ => destruct (Pos.compare_spec a b)
    | |- context [Pos.compare ?a ?b] => destruct (Pos.compare_spec a b)
    end;
  simpl in *; subst; try reflexivity; try discriminate; try lia.

Lemma leb_trans (a b c : number) :
  leb a b = true → leb b c = true → leb a c = true.
Proof.
  unfold leb, SFleb.
  destruct a as [s1|s1| |s1 m1 e1], b as [s2|s2| |s2 m2 e2], c as [s3|s3| |s3 m3 e3];
    simpl; try discriminate; try reflexivity;
    try (destruct s1; simpl; try discriminate; try reflexivity);
    try (destruct s2; simpl; try discriminate; try reflexivity);
    try (destruct s3; simpl; try discriminate; try reflexivity);
    intros H1 H2; order_cases.
Qed.

Lemma jsMax_not_NaN (a b : number) :
  isNaN a = false → isNaN b = false → isNaN (jsMax a b) = false.
Proof.
  intros Ha Hb. destruct a, b; simpl in *; try discriminate; try reflexivity;
    match goal with |- context [if ?t then _ else _] => destruct t end; reflexivity.
Qed.

Lemma jsMin_not_NaN (a b : number) :
  isNaN a = false → isNaN b = false → isNaN (jsMin a b) = false.
Proof.
  intros Ha Hb. destruct a, b; simpl in *; try discriminate; try reflexivity;
    match goal with |- context [if ?t then _ else _] => destruct t end; reflexivity.
Qed.

Lemma jsMax_cases (a b : number) :
  isNaN a = false → isNaN b = false →
  (∃ sa sb, a = S754_zero sa ∧ b = S754_zero sb ∧ jsMax a b = S754_zero (sa && sb))
  ∨ jsMax a b = (if SFltb a b then b else a).
Proof.
  intros Ha Hb. destruct a as [sa| | |], b as [sb| | |]; simpl in *; try discriminate;
    try (right; reflexivity).
  left. now exists sa, sb.
Qed.

Lemma jsMin_cases (a b : number) :
  isNaN a = false → isNaN b = false →
  (∃ sa sb, a = S754_zero sa ∧ b = S754_zero sb ∧ jsMin a b = S754_zero (sa || sb))
  ∨ jsMin a b = (if SFltb b a then b else a).
Proof.
  intros Ha Hb. destruct a as [sa| | |], b as [sb| | |]; simpl in *; try discriminate;
    try (right; reflexivity).
  left. now exists sa, sb.
Qed.

(** Without [NaN], [Math.max] is at least both arguments and [Math.min]
    at most both. *)
Lemma jsMax_upper (a b : number) :
  isNaN a = false → isNaN b = false →
  leb a (jsMax a b) = true ∧ leb b (jsMax a b) = true.
Proof.
  intros Ha Hb. destruct (jsMax_cases a b Ha Hb) as [(sa & sb & -> & -> & ->) | ->].
  - split; reflexivity.
  - destruct (SFltb a b) eqn:Hlt.
    + split; [now apply leb_of_ltb | now apply leb_refl].
    + split; [now apply leb_refl | now apply leb_of_not_ltb].
Qed.

Lemma jsMin_lower (a b : number) :
  isNaN a = false → isNaN b = false →
  leb (jsMin a b) a = true ∧ leb (jsMin a b) b = true.
Proof.
  intros Ha Hb. destruct (jsMin_cases a b Ha Hb) as [(sa & sb & -> & -> & ->) | ->].
  - split; reflexivity.
  - destruct (SFltb b a) eqn:Hlt.
    + split; [now apply leb_of_ltb | now apply leb_refl].
    + split; [now apply leb_refl | now apply leb_of_not_ltb].
Qed.

End NumberFacts.

(** ** The daily series and the generated 5-minute series *)
Section OverlayFacts.
Import Overlay.

Lemma last_removelast (prev : list CandleData) (x : CandleData) :
  last prev = Some x → prev = List.removelast prev ++ [x].
Proof.
  intros Hlast. apply last_Some in Hlast as [l' ->].
  now rewrite List.removelast_last.
Qed.

Lemma strictlyIncreasing_skipn (n : nat) (l : list CandleData) :
  strictlyIncreasing l → strictlyIncreasing (List.skipn n l).
Proof.
  unfold strictlyIncreasing. revert l.
  induction n as [|n IH]; intros l Hs; [exact Hs|].
  destruct l as [|x l]; [constructor|]. simpl.
  apply Sorted_inv in Hs as [Hs _]. now apply IH.
Qed.

Lemma keepLast_suffix (l : list CandleData) :
  ∃ dropped, l = dropped ++ keepLast l ∧ (l = [] ∨ keepLast l ≠ []).
Proof.
  unfold keepLast. destruct (Nat.ltb_spec maxFiveMinCandles (length l)) as [Hlong|Hshort].
  - exists (List.firstn (length l - maxFiveMinCandles) l).
    split; [now rewrite List.firstn_skipn|]. right.
    intros Hnil. apply (f_equal (@length _)) in Hnil.
    rewrite List.length_skipn in Hnil. simpl in Hnil.
    unfold maxFiveMinCandles in *. lia.
  - exists []. split; [reflexivity|]. destruct l; [now left | now right].
Qed.

Lemma keepLast_length (l : list CandleData) :
  (length (keepLast l) ≤ Nat.max (length l - 1) maxFiveMinCandles)%nat.
Proof.
  unfold keepLast. destruct (Nat.ltb_spec maxFiveMinCandles (length l)) as [Hlong|Hshort].
  - rewrite List.length_skipn. lia.
  - lia.
Qed.

Lemma last_keepLast (l : list CandleData) : last (keepLast l) = last l.
Proof.
  destruct (keepLast_suffix l) as (dropped & Heq & [->|Hne]); [reflexivity|].
  rewrite Heq at 2. rewrite last_app.
  destruct (last (keepLast l)) eqn:Hl; [reflexivity|].
  now apply last_None in Hl.
Qed.

Lemma currentFiveMinTime_bounds (now : Z) :
  currentFiveMinTime now ≤ now < currentFiveMinTime now + 300
  ∧ currentFiveMinTime now mod 300 = 0.
Proof.
  unfold currentFiveMinTime, fiveMinInterval.
  change (5 * 60) with 300.
  pose proof (Z.div_mod now 300 ltac:(lia)).
  pose proof (Z.mod_pos_bound now 300 ltac:(lia)).
  split; [lia|]. now rewrite Z.mod_mul by lia.
Qed.

Lemma ohlcInRange_spec (c : CandleData) :
  ohlcInRange c = true ↔
  leb (low c) (open c) = true ∧ leb (open c) (high c) = true
  ∧ leb (low c) (close c) = true ∧ leb (close c) (high c) = true.
Proof. unfold ohlcInRange. rewrite !andb_true_iff. tauto. Qed.

(** The candle a tick opens at price [start] and moves to [price]. *)
Lemma opened_candle_inRange (t : Z) (start price : number) :
  isNaN start = false → isNaN price = false →
  ohlcInRange (mkCandle t start (jsMax start price) (jsMin start price) price) = true.
Proof.
  intros Hs Hp. apply ohlcInRange_spec. simpl.
  destruct (jsMax_upper start price Hs Hp), (jsMin_lower start price Hs Hp). auto.
Qed.

(** The candle a tick widens to take in [price]. *)
Lemma widened_candle_inRange (c : CandleData) (price : number) :
  ohlcInRange c = true → isNaN price = false →
  ohlcInRange
    (mkCandle (time c) (open c) (jsMax (high c) price) (jsMin (low c) price) price)
  = true.
Proof.
  intros Hc Hp. apply ohlcInRange_spec in Hc as (Hlo & Hoh & Hlc & Hch).
  destruct (leb_not_NaN _ _ Hlo) as [Hl _], (leb_not_NaN _ _ Hoh) as [_ Hh].
  destruct (jsMax_upper (high c) price Hh Hp) as [Hmax1 Hmax2].
  destruct (jsMin_lower (low c) price Hl Hp) as [Hmin1 Hmin2].
  apply ohlcInRange_spec. simpl. repeat split.
  - exact (leb_trans _ _ _ Hmin1 Hlo).
  - exact (leb_trans _ _ _ Hoh Hmax1).
  - exact Hmin2.
  - exact Hmax2.
Qed.

End OverlayFacts.

(** A realtime daily update with a whole-second time touches the end of
    the series only.  On a strictly increasing series the result is strictly increasing and has
    the same length or one candle more; the candles before the last one
    are kept as they are; the series ends with the update unless the
    update is older than the last candle, in which case nothing changes. *)
Lemma applyDailyUpdate_dated (c : CandleData) (prev : list CandleData) :
  strictlyIncreasing prev →
  strictlyIncreasing (Overlay.applyDailyUpdate c prev)
  ∧ (length prev ≤ length (Overlay.applyDailyUpdate c prev) ≤ S (length prev))%nat
  ∧ List.removelast prev `prefix_of` Overlay.applyDailyUpdate c prev
  ∧ last (Overlay.applyDailyUpdate c prev)
    = Some (match last prev with
            | Some newest => if time c <? time newest then newest else c
            | None => c
            end)
  ∧ match last prev with
    | Some newest =>
        if time c <? time newest then Overlay.applyDailyUpdate c prev = prev
        else True
    | None => True
    end.
Proof.
  intros Hs. unfold Overlay.applyDailyUpdate.
  destruct (last prev) as [newest|] eqn:Hlast.
  - pose proof (last_removelast prev newest Hlast) as Hprev.
    set (front := List.removelast prev) in *.
    assert (Hfront : strictlyIncreasing front
                     ∧ match last front with
                       | Some y => time y < time newest
                       | None => True
                       end)
      by (apply strictlyIncreasing_snoc; now rewrite <- Hprev).
    pose proof (f_equal (@length _) Hprev) as Hlen.
    rewrite length_app in Hlen. simpl in Hlen.
    destruct (Z.eqb_spec (time c) (time newest)) as [Heq|Hne].
    + destruct (Z.ltb_spec (time c) (time newest)); [lia|].
      split; [apply strictlyIncreasing_snoc; now rewrite Heq|].
      split; [rewrite length_app; simpl; lia|].
      split; [now exists [c]|]. split; [apply last_snoc | exact I].
    + destruct (Z.ltb_spec (time newest) (time c)) as [Hlt|Hge].
      * destruct (Z.ltb_spec (time c) (time newest)); [lia|].
        split; [apply strictlyIncreasing_snoc; rewrite Hlast; tauto|].
        split; [rewrite length_app; simpl; lia|].
        split; [|split; [apply last_snoc | exact I]].
        exists [newest; c]. rewrite Hprev at 1. now rewrite <- app_assoc.
      * destruct (Z.ltb_spec (time c) (time newest)); [|lia].
        split; [exact Hs|]. split; [lia|].
        split; [exists [newest]; exact Hprev|]. split; [exact Hlast | reflexivity].
  - apply last_None in Hlast as ->. simpl.
    split; [repeat constructor|]. split; [lia|].
    split; [now exists [c]|]. split; [reflexivity | exact I].
Qed.

(** X20: the 5-minute series stays ordered and bounded.  A tick at time
    [now] works on the bucket [floor(now / 300) * 300], a multiple of 300
    that holds [now].  On a strictly increasing series the result is
    strictly increasing, is never longer than 288 candles unless the
    series already was (and then no longer than it), and ends with a
    candle of the current bucket unless the last candle is from a later
    bucket, in which case nothing changes. *)
Theorem fiveMinTick_ordered_and_bounded (now : Z) (lastDailyClose newPrice : number)
    (prev : list CandleData) :
  strictlyIncreasing prev →
  (Overlay.currentFiveMinTime now ≤ now < Overlay.currentFiveMinTime now + 300
   ∧ Overlay.currentFiveMinTime now mod 300 = 0)
  ∧ strictlyIncreasing (Overlay.fiveMinTick now lastDailyClose newPrice prev)
  ∧ (length (Overlay.fiveMinTick now lastDailyClose newPrice prev)
     ≤ Nat.max (length prev) 288)%nat
  ∧ match last prev with
    | Some newest =>
        if Overlay.currentFiveMinTime now <? time newest
        then Overlay.fiveMinTick now lastDailyClose newPrice prev = prev
        else last (times (Overlay.fiveMinTick now lastDailyClose newPrice prev))
             = Some (Overlay.currentFiveMinTime now)
    | None =>
        times (Overlay.fiveMinTick now lastDailyClose newPrice prev)
        = [Overlay.currentFiveMinTime now]
    end.
Proof.
  intros Hs. split; [apply currentFiveMinTime_bounds|].
  unfold Overlay.fiveMinTick.
  set (bucket := Overlay.currentFiveMinTime now).
  destruct (last prev) as [newest|] eqn:Hlast.
  - pose proof (last_removelast prev newest Hlast) as Hprev.
    set (front := List.removelast prev) in *.
    assert (Hfront : strictlyIncreasing front
                     ∧ match last front with
                       | Some y => time y < time newest
                       | None => True
                       end)
      by (apply strictlyIncreasing_snoc; now rewrite <- Hprev).
    pose proof (f_equal (@length _) Hprev) as Hlen.
    rewrite length_app in Hlen. simpl in Hlen.
    destruct (Z.eqb_spec bucket (time newest)) as [Heq|Hne].
    + destruct (Z.ltb_spec bucket (time newest)); [lia|].
      split; [apply strictlyIncreasing_snoc; exact Hfront|].
      split; [rewrite length_app; simpl; lia|].
      unfold times. rewrite fmap_app. simpl. now rewrite last_snoc, Heq.
    + destruct (Z.ltb_spec (time newest) bucket) as [Hlt|Hge].
      * destruct (Z.ltb_spec bucket (time newest)); [lia|].
        set (newCandle := mkCandle bucket (close newest)
                            (jsMax (close newest) newPrice)
                            (jsMin (close newest) newPrice) newPrice).
        assert (Hsnoc : strictlyIncreasing (prev ++ [newCandle]))
          by (apply strictlyIncreasing_snoc; rewrite Hlast; simpl; tauto).
        split; [unfold Overlay.keepLast;
                destruct (Overlay.maxFiveMinCandles <? length (prev ++ [newCandle]))%nat;
                [now apply strictlyIncreasing_skipn | exact Hsnoc]|].
        split.
        -- pose proof (keepLast_length (prev ++ [newCandle])) as Hkeep.
           rewrite length_app in Hkeep. simpl in Hkeep.
           unfold Overlay.maxFiveMinCandles in Hkeep. lia.
        -- unfold times.
           transitivity (time <$> last (Overlay.keepLast (prev ++ [newCandle]))).
           { generalize (Overlay.keepLast (prev ++ [newCandle])). intros l.
             induction l as [|a [|b l] IH]; [reflexivity | reflexivity | exact IH]. }
           now rewrite last_keepLast, last_snoc.
      * destruct (Z.ltb_spec bucket (time newest)); [|lia].
        split; [exact Hs|]. split; [lia | reflexivity].
  - apply last_None in Hlast as ->. simpl.
    split; [repeat constructor|]. split; [lia | reflexivity].
Qed.

Lemma fiveMinTick_ordered_and_bounded_witness :
  strictlyIncreasing (Overlay.fiveMinTick 905 (of_Z 10) (of_Z 12) [flat 300 10; flat 600 11]).
Proof.
  apply (fiveMinTick_ordered_and_bounded 905 (of_Z 10) (of_Z 12) [flat 300 10; flat 600 11]).
  repeat constructor.
Defined.

(** X21: the generated candles respect the price range.  When the prices
    fed in are numbers (not [NaN]) and every candle of the series has
    [low <= open <= high] and [low <= close <= high], so has every candle
    after a tick: a candle the tick opens spans its opening price and the
    new price, and a candle it updates is widened to take the new price
    in. *)
Theorem fiveMinTick_keeps_range (now : Z) (lastDailyClose newPrice : number)
    (prev : list CandleData) :
  isNaN lastDailyClose = false → isNaN newPrice = false →
  Forall (fun c => ohlcInRange c = true) prev →
  Forall (fun c => ohlcInRange c = true)
    (Overlay.fiveMinTick now lastDailyClose newPrice prev).
Proof.
  intros Hd Hp Hall. unfold Overlay.fiveMinTick.
  destruct (last prev) as [newest|] eqn:Hlast.
  - pose proof (last_removelast prev newest Hlast) as Hprev.
    assert (Hparts : Forall (fun c => ohlcInRange c = true) (List.removelast prev)
                     ∧ ohlcInRange newest = true).
    { rewrite Hprev in Hall. apply Forall_app in Hall as [Hfront Hnewest].
      split; [exact Hfront|]. now apply Forall_inv in Hnewest. }
    destruct Hparts as [Hfront Hnewest].
    destruct (Overlay.currentFiveMinTime now =? time newest).
    + apply Forall_app. split; [exact Hfront|].
      constructor; [|constructor]. now apply widened_candle_inRange.
    + destruct (time newest <? Overlay.currentFiveMinTime now); [|exact Hall].
      assert (Hnew : Forall (fun c => ohlcInRange c = true)
                       (prev ++
                        [mkCandle (Overlay.currentFiveMinTime now) (close newest)
                           (jsMax (close newest) newPrice)
                           (jsMin (close newest) newPrice) newPrice])).
      { apply Forall_app. split; [exact Hall|]. constructor; [|constructor].
        apply opened_candle_inRange; [|exact Hp].
        apply ohlcInRange_spec in Hnewest as (_ & _ & _ & Hch).
        now apply leb_not_NaN in Hch as [Hc _]. }
      match type of Hnew with
      | Forall _ ?l => destruct (keepLast_suffix l) as (dropped & Heq & _)
      end.
      rewrite Heq in Hnew. now apply Forall_app in Hnew as [_ Hkept].
  - constructor; [|constructor]. now apply opened_candle_inRange.
Qed.

Lemma fiveMinTick_keeps_range_witness :
  Forall (fun c => ohlcInRange c = true)
    (Overlay.fiveMinTick 905 (of_Z 10) (of_Z 12) [flat 300 10; flat 600 11]).
Proof.
  apply (fiveMinTick_keeps_range 905 (of_Z 10) (of_Z 12) [flat 300 10; flat 600 11]).
  - reflexivity.
  - reflexivity.
  - repeat constructor.
Defined.


Section ClampFacts.

Lemma leb_zero_sign (s s' : bool) (c : number) :
  leb (S754_zero s) c = leb (S754_zero s') c.
Proof. now destruct c. Qed.

Lemma jsMax_least (a b c : number) :
  leb a c = true → leb b c = true → leb (jsMax a b) c = true.
Proof.
  intros Ha Hb.
  destruct (leb_not_NaN _ _ Ha) as [Hna _], (leb_not_NaN _ _ Hb) as [Hnb _].
  destruct (jsMax_cases a b Hna Hnb) as [(sa & sb & -> & -> & ->) | ->].
  - now rewrite (leb_zero_sign _ sa).
  - now destruct (SFltb a b).
Qed.

End ClampFacts.

(** X23: [clamp] keeps a number inside its bounds.  With [lo <= hi], a
    value that is a number comes back between [lo] and [hi]; [NaN] comes
    back as [NaN].  The component stores [clamp(percent, 0, 1)], so the
    stored fraction is within [0, 1] whenever [percent] is a number. *)
Theorem clamp_within_bounds (v lo hi : number) :
  leb lo hi = true →
  (if isNaN v then isNaN (clamp v lo hi) = true
   else leb lo (clamp v lo hi) = true ∧ leb (clamp v lo hi) hi = true).
Proof.
  intros Hle. destruct (leb_not_NaN _ _ Hle) as [Hlo Hhi].
  destruct (isNaN v) eqn:Hv.
  - destruct v; try discriminate. unfold clamp.
    destruct hi; simpl; destruct lo; reflexivity.
  - unfold clamp.
    pose proof (jsMin_not_NaN hi v Hhi Hv) as Hmin.
    destruct (jsMin_lower hi v Hhi Hv) as [Hmin_hi _].
    split.
    + now apply jsMax_upper.
    + now apply jsMax_least.
Qed.

Lemma clamp_within_bounds_witness :
  leb (of_Z 0) (clamp (of_Z 5) (of_Z 0) (of_Z 1)) = true
  ∧ leb (clamp (of_Z 5) (of_Z 0) (of_Z 1)) (of_Z 1) = true.
Proof.
  apply (clamp_within_bounds (of_Z 5) (of_Z 0) (of_Z 1)). reflexivity.
Defined.

(** * Candles with any time the code can compute *)

(** ** The wire model agrees with the whole-second model *)
Section WireFacts.

Lemma mapSet_embed (k : Z) (v : CandleData) (m : JsMap.t) :
  Wire.mapSet (Wire.Seconds k) (Wire.embed v) (List.map Wire.embedEntry m)
  = List.map Wire.embedEntry (JsMap.set k v m).
Proof.
  induction m as [|[k0 v0] m IH]; simpl; [reflexivity|].
  destruct (k0 =? k); simpl; [reflexivity|]. now rewrite IH.
Qed.

Lemma collect_embed (l : list CandleData) (m : JsMap.t) :
  Wire.collect (List.map Wire.embed l) (List.map Wire.embedEntry m)
  = List.map Wire.embedEntry (collect l m).
Proof.
  unfold Wire.collect, collect. revert m.
  induction l as [|b l IH]; intros m; simpl; [reflexivity|].
  rewrite <- IH. f_equal. apply (mapSet_embed (time b) b m).
Qed.

Lemma values_embed (m : JsMap.t) :
  List.map snd (List.map Wire.embedEntry m) = List.map Wire.embed (JsMap.values m).
Proof.
  unfold JsMap.values. induction m as [|[k v] m IH]; simpl; [reflexivity|].
  now rewrite IH.
Qed.

Lemma sortInsert_embed (x : CandleData) (l : list CandleData) :
  Wire.sortInsert (Wire.embed x) (List.map Wire.embed l)
  = List.map Wire.embed (sortInsert x l).
Proof.
  induction l as [|y l IH]; simpl; [reflexivity|].
  unfold compareTime.
  destruct (Z.ltb_spec (time y) (time x)), (Z.ltb_spec 0 (time x - time y));
    simpl; try lia; [now rewrite IH | reflexivity].
Qed.

Lemma sortByTime_embed (l : list CandleData) :
  Wire.sortByTime (List.map Wire.embed l) = List.map Wire.embed (sortByTime l).
Proof.
  unfold Wire.sortByTime, sortByTime.
  induction l as [|x l IH]; simpl; [reflexivity|].
  now rewrite IH, sortInsert_embed.
Qed.

(** On candles with whole-second times the two [mergeBars] are the same
    function. *)
Lemma mergeBars_embed (newBars existingBars : list CandleData) :
  Wire.mergeBars (List.map Wire.embed newBars) (List.map Wire.embed existingBars)
  = List.map Wire.embed (mergeBars newBars existingBars).
Proof.
  unfold Wire.mergeBars, mergeBars.
  rewrite <- List.map_app.
  change (@nil (Wire.JsTime * Wire.Candle)) with (List.map Wire.embedEntry JsMap.empty).
  now rewrite collect_embed, values_embed, sortByTime_embed.
Qed.

Lemma strictlyIncreasing_embed (l : list CandleData) :
  strictlyIncreasing l → Wire.strictlyIncreasing (List.map Wire.embed l).
Proof.
  unfold strictlyIncreasing, Wire.strictlyIncreasing.
  induction 1 as [|x l Hs IH Hhd]; simpl; constructor; [exact IH|].
  destruct Hhd as [|y l Hxy]; simpl; constructor. simpl. now apply Z.ltb_lt.
Qed.

Lemma wholeSeconds_embed (l : list Wire.Candle) :
  Wire.wholeSeconds l → l = List.map Wire.embed (List.map Wire.unembed l).
Proof.
  unfold Wire.wholeSeconds. induction 1 as [|c l Hc _ IH]; simpl; [reflexivity|].
  rewrite <- IH. f_equal. destruct c as [[| z | |] o h lo cl]; simpl in *;
    try discriminate. reflexivity.
Qed.

Lemma embed_wholeSeconds (l : list CandleData) :
  Wire.wholeSeconds (List.map Wire.embed l).
Proof.
  unfold Wire.wholeSeconds. induction l; simpl; constructor; auto.
Qed.

Lemma validBars_embed (l : list CandleData) :
  Wire.validBars (List.map Wire.embed l) = List.map Wire.embed (validBars l).
Proof.
  unfold Wire.validBars, validBars. induction l as [|c l IH]; simpl; [reflexivity|].
  rewrite IH. unfold Wire.isValidBar, isValidBar. simpl.
  now destruct (0 <? time c), (isFinite (open c)), (isFinite (high c)),
    (isFinite (low c)), (isFinite (close c)).
Qed.

End WireFacts.

(** ** Ordering of a merged series (C2) *)

Lemma tltb_NaN_r (t : Wire.JsTime) : Wire.tltb t Wire.NotANumber = false.
Proof. now destruct t. Qed.

Lemma tltb_NaN_l (t : Wire.JsTime) : Wire.tltb Wire.NotANumber t = false.
Proof. now destruct t. Qed.

(** A series of two or more candles, one of them with time [NaN], is not
    strictly increasing, in whatever order it is. *)
Lemma undated_not_increasing (l : list Wire.Candle) (c : Wire.Candle) :
  c ∈ l → Wire.time c = Wire.NotANumber → (1 < length l)%nat →
  ¬ Wire.strictlyIncreasing l.
Proof.
  unfold Wire.strictlyIncreasing.
  induction l as [|x l IH]; intros Hin Hc Hlen Hs; [inversion Hin|].
  apply Sorted_inv in Hs as [Hs Hhd].
  apply elem_of_cons in Hin as [<- | Hin].
  - destruct Hhd as [|y l Hxy]; [simpl in Hlen; lia|].
    rewrite Hc, tltb_NaN_l in Hxy. discriminate.
  - destruct l as [|y [|z l]].
    + inversion Hin.
    + apply list_elem_of_singleton in Hin as ->.
      apply HdRel_inv in Hhd. rewrite Hc, tltb_NaN_r in Hhd. discriminate.
    + apply IH; auto. simpl. lia.
Qed.

Lemma mergeAll_embed (updates : list (list CandleData)) (series : list CandleData) :
  Wire.mergeAll (List.map (List.map Wire.embed) updates) (List.map Wire.embed series)
  = List.map Wire.embed (mergeAll updates series).
Proof.
  unfold Wire.mergeAll, mergeAll. revert series.
  induction updates as [|u us IH]; intros series; simpl; [reflexivity|].
  now rewrite mergeBars_embed, IH.
Qed.

Lemma wholeSeconds_all_embed (updates : list (list Wire.Candle)) :
  Forall Wire.wholeSeconds updates →
  updates = List.map (List.map Wire.embed) (List.map (List.map Wire.unembed) updates).
Proof.
  induction 1 as [|u us Hu _ IH]; simpl; [reflexivity|].
  now rewrite <- IH, <- (wholeSeconds_embed u Hu).
Qed.

Lemma times_embed_NoDup (l : list CandleData) :
  NoDup (times l) → NoDup (Wire.times (List.map Wire.embed l)).
Proof.
  unfold times, Wire.times. rewrite List.map_map. simpl.
  rewrite <- (List.map_map time Wire.Seconds).
  intros H.
  assert (Hinj : Inj eq eq Wire.Seconds) by (intros x y Hxy; now inversion Hxy).
  exact (NoDup_fmap_2 Wire.Seconds _ H).
Qed.

(** C2, at a candle without a date: merging a candle whose time is [NaN] with a
    dated candle keeps both, and the result is not strictly increasing by
    time; no arrangement of it is. *)
Lemma mergeBars_undated_candle_unordered :
  Wire.times (Wire.mergeBars [Samples.undatedCandle] [Wire.embed (flat 5 1)])
  = [Wire.NotANumber; Wire.Seconds 5] ∧
  ¬ Wire.strictlyIncreasing
      (Wire.mergeBars [Samples.undatedCandle] [Wire.embed (flat 5 1)]) ∧
  Wire.cannotBeOrdered
      (Wire.mergeBars [Samples.undatedCandle] [Wire.embed (flat 5 1)]).
Proof.
  assert (Hm : Wire.mergeBars [Samples.undatedCandle] [Wire.embed (flat 5 1)]
               = [Samples.undatedCandle; Wire.embed (flat 5 1)])
    by (vm_compute; reflexivity).
  rewrite Hm. split; [reflexivity|]. split.
  - apply (undated_not_increasing _ Samples.undatedCandle);
      [apply list_elem_of_here | reflexivity | simpl; lia].
  - intros arranged Hp.
    apply (undated_not_increasing _ Samples.undatedCandle).
    + rewrite Hp. apply list_elem_of_here.
    + reflexivity.
    + rewrite (Permutation_length Hp). simpl. lia.
Qed.

(** C2, on dated candles: when every time in the series and in the updates is a
    whole number of seconds (in any order, with repeated times), the
    series [mergeBars] returns is strictly increasing by [time] and holds
    no time twice, and so is the series after any sequence of one or more
    such merges. *)
Theorem mergeBars_ordering_whole_seconds
  (series update : list Wire.Candle) (updates : list (list Wire.Candle))
  (Hseries : Wire.wholeSeconds series)
  (Hupdate : Wire.wholeSeconds update)
  (Hupdates : Forall Wire.wholeSeconds updates) :
  (Wire.strictlyIncreasing (Wire.mergeBars update series) ∧
   NoDup (Wire.times (Wire.mergeBars update series)) ∧
   Wire.wholeSeconds (Wire.mergeBars update series)) ∧
  (Wire.strictlyIncreasing (Wire.mergeAll (update :: updates) series) ∧
   NoDup (Wire.times (Wire.mergeAll (update :: updates) series)) ∧
   Wire.wholeSeconds (Wire.mergeAll (update :: updates) series)).
Proof.
  rewrite (wholeSeconds_embed series Hseries), (wholeSeconds_embed update Hupdate).
  split.
  - rewrite mergeBars_embed. split; [|split].
    + apply strictlyIncreasing_embed, mergeBars_sorted.
    + apply times_embed_NoDup, mergeBars_NoDup.
    + apply embed_wholeSeconds.
  - rewrite (wholeSeconds_all_embed updates Hupdates).
    change (List.map (List.map Wire.embed) ?a) with (List.map (List.map Wire.embed) a).
    rewrite <- (List.map_cons (List.map Wire.embed)).
    rewrite mergeAll_embed.
    assert (Hs : strictlyIncreasing
                   (mergeAll (List.map Wire.unembed update
                              :: List.map (List.map Wire.unembed) updates)
                             (List.map Wire.unembed series)))
      by (simpl; apply mergeAll_sorted, mergeBars_sorted).
    split; [|split].
    + now apply strictlyIncreasing_embed.
    + now apply times_embed_NoDup, strictlyIncreasing_NoDup.
    + apply embed_wholeSeconds.
Qed.

Lemma mergeBars_ordering_whole_seconds_witness :
  Wire.strictlyIncreasing
    (Wire.mergeAll [[Wire.embed (flat 9 1); Wire.embed (flat 3 2)];
                    [Wire.embed (flat 3 4)]]
                   [Wire.embed (flat 9 5); Wire.embed (flat 4 6)]).
Proof.
  apply (mergeBars_ordering_whole_seconds
           [Wire.embed (flat 9 5); Wire.embed (flat 4 6)]
           [Wire.embed (flat 9 1); Wire.embed (flat 3 2)]
           [[Wire.embed (flat 3 4)]]).
  - repeat constructor.
  - repeat constructor.
  - repeat constructor.
Defined.

(** ** What the validation admits (C4) *)
Section WireValidity.

Lemma wire_isValidBar_spec (c : Wire.Candle) :
  Wire.isValidBar c = true ↔
  Wire.tltb (Wire.Seconds 0) (Wire.time c) = true ∧ isFinite (Wire.open c) = true
  ∧ isFinite (Wire.high c) = true ∧ isFinite (Wire.low c) = true
  ∧ isFinite (Wire.close c) = true.
Proof. unfold Wire.isValidBar. rewrite !andb_true_iff. tauto. Qed.

Lemma wire_normalizeCandle_spec (kline : Wire.RawKline) :
  Wire.normalizeCandle kline =
  if Wire.admitted (Wire.candleOfKline kline)
  then Some (Wire.candleOfKline kline) else None.
Proof.
  unfold Wire.normalizeCandle, Wire.admitted, Wire.finiteOHLC, Wire.candleOfKline.
  cbv zeta. simpl.
  destruct (isFinite (Wire.k_o kline)), (isFinite (Wire.k_h kline)),
    (isFinite (Wire.k_l kline)), (isFinite (Wire.k_c kline)),
    (Wire.tleb0 (Wire.floorSeconds (Wire.k_t kline))); reflexivity.
Qed.

Lemma wire_normalizeAll_elem (klines : list Wire.RawKline) (c : Wire.Candle) :
  c ∈ Wire.normalizeAll klines ↔
  ∃ k, k ∈ klines ∧ c = Wire.candleOfKline k ∧ Wire.admitted c = true.
Proof.
  unfold Wire.normalizeAll. rewrite list_elem_of_In, in_flat_map. split.
  - intros (k & Hk & Hc). exists k. rewrite list_elem_of_In. split; [exact Hk|].
    rewrite wire_normalizeCandle_spec in Hc.
    destruct (Wire.admitted (Wire.candleOfKline k)) eqn:Ha; simpl in Hc; [|tauto].
    destruct Hc as [<- | []]. now split.
  - intros (k & Hk & -> & Ha). exists k. rewrite <- list_elem_of_In. split; [exact Hk|].
    rewrite wire_normalizeCandle_spec, Ha. now left.
Qed.

Lemma wire_admitted_spec (c : Wire.Candle) :
  Wire.admitted c = true ↔
  (isFinite (Wire.open c) = true ∧ isFinite (Wire.high c) = true
   ∧ isFinite (Wire.low c) = true ∧ isFinite (Wire.close c) = true)
  ∧ (Wire.time c = Wire.NotANumber ∨ Wire.time c = Wire.PosInfinity
     ∨ ∃ z, Wire.time c = Wire.Seconds z ∧ 0 < z).
Proof.
  unfold Wire.admitted, Wire.finiteOHLC.
  rewrite !andb_true_iff, negb_true_iff.
  assert (Ht : Wire.tleb0 (Wire.time c) = false ↔
               (Wire.time c = Wire.NotANumber ∨ Wire.time c = Wire.PosInfinity
                ∨ ∃ z, Wire.time c = Wire.Seconds z ∧ 0 < z)).
  { destruct (Wire.time c) as [| z | |]; simpl.
    - split; [discriminate|]. intros [H | [H | (z & H & _)]]; discriminate.
    - rewrite Z.leb_gt. split.
      + intros Hz. right. right. now exists z.
      + intros [H | [H | (z' & H & Hz)]]; try discriminate.
        now injection H as ->.
    - split; auto.
    - split; auto. }
  rewrite Ht. tauto.
Qed.

(** On a kline with a whole number of milliseconds the earlier variant's
    [normalizeCandle] is the one above. *)
Lemma normalizeCandle_embed (k : History.RawKline) :
  Wire.normalizeCandle (Wire.embedKline k)
  = option_map Wire.embed (Legacy.normalizeCandle k).
Proof.
  unfold Wire.normalizeCandle, Legacy.normalizeCandle. cbv zeta. simpl.
  destruct (negb (isFinite (History.k_o k)) || negb (isFinite (History.k_h k))
            || negb (isFinite (History.k_l k)) || negb (isFinite (History.k_c k))
            || (History.k_t k / 1000 <=? 0)); reflexivity.
Qed.

End WireValidity.

(** C4, as the code has it.  The [validBars] filters admit
    exactly the candles with [time > 0] and finite open, high, low and
    close.  [normalizeCandle] admits a kline exactly when its four prices
    are finite and its time is not [<= 0]: a positive time, and also a time
    that is [NaN], as for the kline without a readable open time.  Neither
    tests a relation between low, open, close and high.  An admitted record
    is an unchanged record of the input, in the input's order; a record
    that fails is dropped whole. *)
Theorem validity_filter_as_coded :
  (∀ (bars : list Wire.Candle) (c : Wire.Candle),
     c ∈ Wire.validBars bars ↔
     c ∈ bars ∧ Wire.tltb (Wire.Seconds 0) (Wire.time c) = true
     ∧ isFinite (Wire.open c) = true ∧ isFinite (Wire.high c) = true
     ∧ isFinite (Wire.low c) = true ∧ isFinite (Wire.close c) = true) ∧
  (∀ bars : list Wire.Candle, Wire.validBars bars `sublist_of` bars) ∧
  (∀ kline : Wire.RawKline,
     Wire.normalizeCandle kline =
     if Wire.admitted (Wire.candleOfKline kline)
     then Some (Wire.candleOfKline kline) else None) ∧
  (∀ c : Wire.Candle,
     Wire.admitted c = true ↔
     (isFinite (Wire.open c) = true ∧ isFinite (Wire.high c) = true
      ∧ isFinite (Wire.low c) = true ∧ isFinite (Wire.close c) = true)
     ∧ (Wire.time c = Wire.NotANumber ∨ Wire.time c = Wire.PosInfinity
        ∨ ∃ z, Wire.time c = Wire.Seconds z ∧ 0 < z)) ∧
  (∀ (klines : list Wire.RawKline) (c : Wire.Candle),
     c ∈ Wire.normalizeAll klines ↔
     ∃ k, k ∈ klines ∧ c = Wire.candleOfKline k ∧ Wire.admitted c = true) ∧
  (∀ klines : list Wire.RawKline,
     Wire.normalizeAll klines
     `sublist_of` List.map Wire.candleOfKline klines) ∧
  (Wire.normalizeCandle Samples.undatedKline = Some Samples.undatedCandle ∧
   Wire.isValidBar Samples.undatedCandle = false) ∧
  (Wire.normalizeCandle (Wire.embedKline Samples.invertedKline)
   = Some (Wire.embed Samples.invertedCandle) ∧
   Wire.validBars [Wire.embed Samples.invertedCandle]
   = [Wire.embed Samples.invertedCandle]).
Proof.
  split; [|split; [|split; [|split; [|split; [|split; [|split]]]]]].
  - intros bars c. unfold Wire.validBars.
    rewrite list_elem_of_In, filter_In, <- list_elem_of_In, wire_isValidBar_spec.
    reflexivity.
  - intros bars. unfold Wire.validBars. induction bars as [|b bars IH]; simpl.
    + constructor.
    + destruct (Wire.isValidBar b); now constructor.
  - apply wire_normalizeCandle_spec.
  - apply wire_admitted_spec.
  - apply wire_normalizeAll_elem.
  - intros klines. unfold Wire.normalizeAll.
    induction klines as [|k klines IH]; simpl; [constructor|].
    rewrite wire_normalizeCandle_spec.
    destruct (Wire.admitted (Wire.candleOfKline k)); simpl; now constructor.
  - split; vm_compute; reflexivity.
  - split; vm_compute; reflexivity.
Qed.

(** ** Older-edge backfill (C9) *)
Section WireBackfill.

Lemma wire_validBars_all_valid (bars : list Wire.Candle) :
  Forall (fun c => Wire.isValidBar c = true) (Wire.validBars bars).
Proof.
  apply List.Forall_forall. intros c Hc.
  unfold Wire.validBars in Hc. now apply filter_In in Hc as [_ Hv].
Qed.

(** With whole-second times on both sides the valid candles of the merge
    are strictly increasing, and the first of them has the smallest
    time. *)
Lemma wire_merged_whole (newBars hist : list Wire.Candle) :
  Wire.wholeSeconds newBars → Wire.wholeSeconds hist →
  Wire.strictlyIncreasing (Wire.validBars (Wire.mergeBars newBars hist)) ∧
  ∀ first, List.head (Wire.validBars (Wire.mergeBars newBars hist)) = Some first →
    ∃ o, Wire.time first = Wire.Seconds o ∧
         Forall (fun c => ∃ z, Wire.time c = Wire.Seconds z ∧ o ≤ z)
                (Wire.validBars (Wire.mergeBars newBars hist)).
Proof.
  intros Hn Hh.
  rewrite (wholeSeconds_embed newBars Hn), (wholeSeconds_embed hist Hh).
  rewrite mergeBars_embed, validBars_embed.
  set (m := validBars (mergeBars (List.map Wire.unembed newBars)
                                 (List.map Wire.unembed hist))).
  assert (Hs : strictlyIncreasing m)
    by (apply strictlyIncreasing_filter, mergeBars_sorted).
  split; [now apply strictlyIncreasing_embed|].
  intros first Hfirst. destruct m as [|f r]; [discriminate|].
  simpl in Hfirst. injection Hfirst as <-.
  exists (time f). split; [reflexivity|].
  apply strictlyIncreasing_head_least in Hs.
  apply List.Forall_forall. intros c Hc.
  apply in_map_iff in Hc as (c' & <- & Hc').
  exists (time c'). split; [reflexivity|].
  rewrite List.Forall_forall in Hs. now apply Hs.
Qed.

Lemma wire_requestedRange_guard (st : Wire.State) (now from : Z) :
  Wire.falsy (Wire.oldestLoadedTime st) = true
  ∨ Wire.notOlder from (Wire.oldestLoadedTime st) = true →
  Wire.requestedRange st now from = None.
Proof.
  intros [H|H]; unfold Wire.requestedRange; rewrite H;
    [reflexivity | now rewrite orb_true_r].
Qed.

Lemma wire_requestedRange_open (st : Wire.State) (now from : Z) :
  Wire.falsy (Wire.oldestLoadedTime st) = false →
  Wire.notOlder from (Wire.oldestLoadedTime st) = false →
  Wire.requestedRange st now from =
  if Z.max (from - 7 * 24 * 60 * 60) 0 * 1000 <? now - 30 * 24 * 60 * 60 * 1000
  then None
  else Some (Z.max (from - 7 * 24 * 60 * 60) 0 * 1000,
             Wire.toMs (Wire.oldestLoadedTime st)).
Proof. intros Hf Ho. unfold Wire.requestedRange. now rewrite Hf, Ho. Qed.

End WireBackfill.

(** C9, as the code has it.  An older-edge event for time [from]
    fetches nothing and leaves the state unchanged when the oldest bound
    is missing, 0 or [NaN], or [from] is not older than it, and also when
    the start of the range, a week (604800 s) before [from] and not below
    0, lies more than 30 days before now.  Otherwise it asks the provider
    for [max(from - 7d, 0) * 1000 .. oldest * 1000] in milliseconds, a range
    that starts within the last 30 days; an empty answer leaves the state
    unchanged, and a non-empty one is merged and filtered: the series
    becomes the valid candles of the merge and the oldest bound the time
    of its first candle.  When every time of the answer and of the held
    series is a whole number of seconds, that series is strictly
    increasing and the new oldest bound is its smallest time. *)
Theorem loadMoreHistory_older_edge_as_coded
    (fetchHistory : Z → Wire.JsTime → list Wire.Candle) (st : Wire.State)
    (now from : Z) :
  (Wire.falsy (Wire.oldestLoadedTime st) = true
   ∨ Wire.notOlder from (Wire.oldestLoadedTime st) = true →
   Wire.loadMoreHistory fetchHistory st now from = (st, None)) ∧
  (Wire.falsy (Wire.oldestLoadedTime st) = false →
   Wire.notOlder from (Wire.oldestLoadedTime st) = false →
   let newStartTime := Z.max (from - 7 * 24 * 60 * 60) 0 * 1000 in
   let endTime := Wire.toMs (Wire.oldestLoadedTime st) in
   (newStartTime < now - 30 * 24 * 60 * 60 * 1000 →
    Wire.loadMoreHistory fetchHistory st now from = (st, None)) ∧
   (now - 30 * 24 * 60 * 60 * 1000 ≤ newStartTime →
    snd (Wire.loadMoreHistory fetchHistory st now from) = Some (newStartTime, endTime)
    ∧ (fetchHistory newStartTime endTime = [] →
       fst (Wire.loadMoreHistory fetchHistory st now from) = st)
    ∧ (fetchHistory newStartTime endTime ≠ [] →
       let st' := fst (Wire.loadMoreHistory fetchHistory st now from) in
       let merged :=
         Wire.validBars
           (Wire.mergeBars (fetchHistory newStartTime endTime) (Wire.candleHistory st)) in
       (merged = [] ∧ st' = st) ∨
       (Wire.candleHistory st' = merged
        ∧ Wire.oldestLoadedTime st' = List.head (Wire.times merged)
        ∧ Wire.newestLoadedTime st' = Wire.newestLoadedTime st
        ∧ Forall (fun c => Wire.isValidBar c = true) merged
        ∧ (Wire.wholeSeconds (fetchHistory newStartTime endTime) →
           Wire.wholeSeconds (Wire.candleHistory st) →
           Wire.strictlyIncreasing merged
           ∧ ∃ o, Wire.oldestLoadedTime st' = Some (Wire.Seconds o)
                  ∧ Forall (fun c => ∃ z, Wire.time c = Wire.Seconds z ∧ o ≤ z)
                           merged))))).
Proof.
  split.
  - intros Hguard. unfold Wire.loadMoreHistory.
    now rewrite wire_requestedRange_guard.
  - intros Hf Ho newStartTime endTime.
    pose proof (wire_requestedRange_open st now from Hf Ho) as Hrange.
    change (Z.max (from - 7 * 24 * 60 * 60) 0 * 1000) with newStartTime in Hrange.
    change (Wire.toMs (Wire.oldestLoadedTime st)) with endTime in Hrange.
    unfold Wire.loadMoreHistory. rewrite Hrange. split.
    + intros Hfar.
      destruct (Z.ltb_spec newStartTime (now - 30 * 24 * 60 * 60 * 1000));
        [reflexivity | lia].
    + intros Hnear.
      destruct (Z.ltb_spec newStartTime (now - 30 * 24 * 60 * 60 * 1000)); [lia|].
      destruct (fetchHistory newStartTime endTime) as [|bar bars] eqn:Hfetch; simpl.
      * split; [reflexivity|]. split; [reflexivity | intros Hne; now contradiction Hne].
      * split; [reflexivity|]. split; [discriminate|]. intros _.
        cbv zeta. unfold Wire.applyOlder. cbv zeta.
        destruct (Wire.validBars (Wire.mergeBars (bar :: bars) (Wire.candleHistory st)))
          as [|first rest] eqn:Hm; [left; split; reflexivity | right].
        simpl. split; [reflexivity|]. split; [reflexivity|]. split; [reflexivity|].
        split; [rewrite <- Hm; apply wire_validBars_all_valid|].
        intros Hwn Hwh.
        destruct (wire_merged_whole (bar :: bars) (Wire.candleHistory st) Hwn Hwh)
          as [Hs Hleast].
        rewrite Hm in Hs, Hleast. split; [exact Hs|].
        destruct (Hleast first eq_refl) as (o & Ht & Hall).
        exists o. rewrite Ht. split; [reflexivity | exact Hall].
Qed.

Lemma loadMoreHistory_older_edge_as_coded_witness :
  Wire.loadMoreHistory Samples.wireOlderBars Samples.wireReadyState Samples.nowMs
    (Samples.T0 + 5)
  = (Samples.wireReadyState, None) ∧
  snd (Wire.loadMoreHistory Samples.wireOlderBars Samples.wireReadyState Samples.nowMs
         (Samples.T0 - 500))
  = Some (1699394700000, Wire.Seconds 1700000000000) ∧
  Wire.oldestLoadedTime
    (fst (Wire.loadMoreHistory Samples.wireOlderBars Samples.wireReadyState
            Samples.nowMs (Samples.T0 - 500)))
  = Some (Wire.Seconds (Samples.T0 - 1200)) ∧
  Wire.strictlyIncreasing
    (Wire.validBars
       (Wire.mergeBars (Samples.wireOlderBars 0 (Wire.Seconds 0))
          (Wire.candleHistory Samples.wireReadyState))).
Proof.
  split.
  - apply (proj1 (loadMoreHistory_older_edge_as_coded Samples.wireOlderBars
                    Samples.wireReadyState Samples.nowMs (Samples.T0 + 5))).
    right. vm_compute. reflexivity.
  - destruct (proj2 (loadMoreHistory_older_edge_as_coded Samples.wireOlderBars
                       Samples.wireReadyState Samples.nowMs (Samples.T0 - 500))
                eq_refl eq_refl) as [_ Hnear].
    destruct Hnear as (Hrange & _ & Hfull); [vm_compute; discriminate|].
    split; [exact Hrange|].
    destruct Hfull as [[Hnone _] | (_ & Hold & _ & _ & Hwhole)].
    + vm_compute. discriminate.
    + vm_compute in Hnone. discriminate Hnone.
    + split; [rewrite Hold; vm_compute; reflexivity|].
      apply Hwhole; repeat constructor.
Defined.

(** ** Live klines, as they arrive *)
Section WireLive.

Lemma embed_inj (a b : CandleData) : Wire.embed a = Wire.embed b → a = b.
Proof.
  destruct a, b. unfold Wire.embed. simpl. intros H. now inversion H.
Qed.

Lemma strictlyIncreasing_unembed (l : list CandleData) :
  Wire.strictlyIncreasing (List.map Wire.embed l) → strictlyIncreasing l.
Proof.
  unfold strictlyIncreasing, Wire.strictlyIncreasing.
  induction l as [|x l IH]; simpl; intros Hs; [constructor|].
  apply Sorted_inv in Hs as [Hs Hhd]. constructor; [now apply IH|].
  destruct l as [|y l]; constructor.
  apply HdRel_inv in Hhd. simpl in Hhd. now apply Z.ltb_lt.
Qed.

Lemma elem_of_embed (c : CandleData) (l : list CandleData) :
  Wire.embed c ∈ List.map Wire.embed l ↔ c ∈ l.
Proof.
  rewrite !list_elem_of_In, in_map_iff. split.
  - intros (c' & Heq & Hin). now rewrite <- (embed_inj _ _ Heq).
  - intros Hin. now exists c.
Qed.

Lemma times_embed (l : list CandleData) :
  Wire.times (List.map Wire.embed l) = List.map Wire.Seconds (times l).
Proof. unfold Wire.times, times. now rewrite !List.map_map. Qed.

Lemma seconds_kline (k : Wire.RawKline) :
  Wire.isSeconds (Wire.k_t k) = true → k = Wire.embedKline (Wire.unembedKline k).
Proof.
  destruct k as [[| z | |] o h l c]; simpl; intros H; try discriminate. reflexivity.
Qed.

Lemma candleOfKline_embed (k : History.RawKline) :
  Wire.candleOfKline (Wire.embedKline k) = Wire.embed (History.candleOfKline k).
Proof. reflexivity. Qed.

Lemma onMessageBinance_embed (k : History.RawKline) (prev : list CandleData) :
  Wire.onMessageBinance (Wire.MsgKline (Wire.embedKline k)) (List.map Wire.embed prev)
  = List.map Wire.embed (History.onMessageBinance (History.MsgKline k) prev).
Proof.
  unfold Wire.onMessageBinance, History.onMessageBinance. cbv zeta.
  rewrite candleOfKline_embed.
  change (Wire.open (Wire.embed ?c)) with (open c).
  change (Wire.high (Wire.embed ?c)) with (high c).
  change (Wire.low (Wire.embed ?c)) with (low c).
  change (Wire.close (Wire.embed ?c)) with (close c).
  destruct (negb (isFinite (open (History.candleOfKline k)))
            || negb (isFinite (high (History.candleOfKline k)))
            || negb (isFinite (low (History.candleOfKline k)))
            || negb (isFinite (close (History.candleOfKline k)))); [reflexivity|].
  apply (mergeBars_embed [History.candleOfKline k] prev).
Qed.

End WireLive.

Section WireUndated.

Lemma wire_sortInsert_Permutation (x : Wire.Candle) (l : list Wire.Candle) :
  Wire.sortInsert x l ≡ₚ x :: l.
Proof.
  induction l as [|y l IH]; simpl; [reflexivity|].
  destruct (Wire.tltb (Wire.time y) (Wire.time x)); [|reflexivity].
  rewrite IH. apply Permutation_swap.
Qed.

Lemma wire_sortByTime_Permutation (l : list Wire.Candle) :
  Wire.sortByTime l ≡ₚ l.
Proof.
  unfold Wire.sortByTime. induction l as [|x l IH]; simpl; [reflexivity|].
  now rewrite wire_sortInsert_Permutation, IH.
Qed.

Lemma wire_mapSet_length (k : Wire.JsTime) (v : Wire.Candle)
    (m : list (Wire.JsTime * Wire.Candle)) :
  (length m ≤ length (Wire.mapSet k v m))%nat.
Proof.
  induction m as [|[k' v'] m IH]; simpl; [lia|].
  destruct (Wire.sameValueZero k' k); simpl; lia.
Qed.

Lemma wire_collect_length (bars : list Wire.Candle)
    (m : list (Wire.JsTime * Wire.Candle)) :
  (length m ≤ length (Wire.collect bars m))%nat.
Proof.
  unfold Wire.collect. revert m.
  induction bars as [|b bars IH]; intros m; simpl; [lia|].
  etransitivity; [apply (wire_mapSet_length (Wire.time b) b)|apply IH].
Qed.

(** An entry kept under the key [NaN] is not touched by candles with
    whole-second times. *)
Lemma wire_collect_undated (bars : list Wire.Candle) (c : Wire.Candle)
    (m : list (Wire.JsTime * Wire.Candle)) :
  Wire.wholeSeconds bars →
  Wire.collect bars ((Wire.NotANumber, c) :: m)
  = (Wire.NotANumber, c) :: Wire.collect bars m.
Proof.
  unfold Wire.collect, Wire.wholeSeconds. intros Hw. revert m.
  induction Hw as [|b bars Hb _ IH]; intros m; simpl; [reflexivity|].
  destruct (Wire.time b) eqn:Ht; simpl in Hb; try discriminate.
  simpl. apply IH.
Qed.

(** Merging a candle whose time is [NaN] into a non-empty series of dated
    candles gives a series that is not strictly increasing. *)
Lemma wire_merge_undated (c : Wire.Candle) (prev : list Wire.Candle) :
  Wire.time c = Wire.NotANumber → Wire.wholeSeconds prev → prev ≠ [] →
  c ∈ Wire.mergeBars [c] prev ∧ ¬ Wire.strictlyIncreasing (Wire.mergeBars [c] prev).
Proof.
  intros Hc Hw Hne.
  assert (Hm : Wire.mergeBars [c] prev
               ≡ₚ c :: List.map snd (Wire.collect prev [])).
  { unfold Wire.mergeBars. rewrite wire_sortByTime_Permutation.
    change ([c] ++ prev) with (c :: prev).
    unfold Wire.collect at 1. simpl. rewrite Hc.
    fold (Wire.collect prev [(Wire.NotANumber, c)]).
    now rewrite wire_collect_undated. }
  assert (Hin : c ∈ Wire.mergeBars [c] prev)
    by (rewrite Hm; apply list_elem_of_here).
  split; [exact Hin|].
  apply (undated_not_increasing _ c Hin Hc).
  rewrite (Permutation_length Hm). simpl. rewrite List.length_map.
  destruct prev as [|p prev]; [contradiction|].
  unfold Wire.collect. simpl.
  pose proof (wire_collect_length prev [(Wire.time p, p)]) as Hl.
  unfold Wire.collect in Hl. simpl in Hl. lia.
Qed.

End WireUndated.

(** X16: what a live kline does to the series.  On a strictly increasing
    series of dated candles, a message that is unparsable, has no kline,
    or carries a kline whose open time is a whole number of milliseconds
    gives a strictly increasing series that still holds every candle it
    held: the series as it was (also for a non-finite price or a time
    already present), or the series with the kline's candle added.  The
    time is not tested: a kline with finite prices whose open time is not
    a number is merged all the same, and the series, if it held a candle,
    is then no longer strictly increasing. *)
Theorem live_kline_as_it_arrives (msg : Wire.LiveMsg) (prev : list Wire.Candle)
    (Hwhole : Wire.wholeSeconds prev) (Hsorted : Wire.strictlyIncreasing prev) :
  ((∀ k, msg = Wire.MsgKline k → Wire.isSeconds (Wire.k_t k) = true) →
   Wire.strictlyIncreasing (Wire.onMessageBinance msg prev)
   ∧ prev ⊆ Wire.onMessageBinance msg prev
   ∧ (Wire.onMessageBinance msg prev = prev
      ∨ ∃ k, msg = Wire.MsgKline k
             ∧ Wire.finiteOHLC (Wire.candleOfKline k) = true
             ∧ (Wire.time (Wire.candleOfKline k) ∉ Wire.times prev)
             ∧ Wire.onMessageBinance msg prev ≡ₚ (Wire.candleOfKline k :: prev))) ∧
  (∀ k, msg = Wire.MsgKline k → Wire.k_t k = Wire.NotANumber →
        Wire.finiteOHLC (Wire.candleOfKline k) = true → prev ≠ [] →
        Wire.candleOfKline k ∈ Wire.onMessageBinance msg prev
        ∧ ¬ Wire.strictlyIncreasing (Wire.onMessageBinance msg prev)).
Proof.
  split.
  - intros Hk. destruct msg as [| |k].
    + split; [exact Hsorted|]. split; [intros x Hx; exact Hx | now left].
    + split; [exact Hsorted|]. split; [intros x Hx; exact Hx | now left].
    + rewrite (seconds_kline k (Hk k eq_refl)).
      set (k' := Wire.unembedKline k).
      rewrite (wholeSeconds_embed prev Hwhole) in *.
      set (p := List.map Wire.unembed prev) in *.
      apply strictlyIncreasing_unembed in Hsorted.
      rewrite onMessageBinance_embed.
      destruct (onMessageBinance_dated (History.MsgKline k') p Hsorted)
        as (Hs & Hsub & Hcase).
      split; [now apply strictlyIncreasing_embed|]. split.
      * intros x Hx. apply list_elem_of_In, in_map_iff in Hx as (y & <- & Hy).
        apply elem_of_embed, Hsub. now apply list_elem_of_In.
      * destruct Hcase as [Heq | (k0 & Hk0 & Hfin & Hnew & Hperm)].
        -- left. now rewrite Heq.
        -- injection Hk0 as <-. right. exists (Wire.embedKline k').
           split; [reflexivity|]. split; [exact Hfin|]. split.
           ++ rewrite times_embed, candleOfKline_embed. simpl.
              intros Hin. apply Hnew.
              apply list_elem_of_In, in_map_iff in Hin as (t & Ht & Hin).
              injection Ht as ->. now apply list_elem_of_In.
           ++ rewrite candleOfKline_embed.
              change (Wire.embed (History.candleOfKline k') :: List.map Wire.embed p)
                with (List.map Wire.embed (History.candleOfKline k' :: p)).
              now apply Permutation_map.
  - intros k -> Ht Hfin Hne.
    unfold Wire.onMessageBinance. cbv zeta.
    unfold Wire.finiteOHLC in Hfin. rewrite !andb_true_iff in Hfin.
    destruct Hfin as [[[-> ->] ->] ->]. cbn [negb orb].
    apply wire_merge_undated; [|exact Hwhole | exact Hne].
    unfold Wire.candleOfKline. simpl. now rewrite Ht.
Qed.

Lemma live_kline_as_it_arrives_witness :
  Wire.strictlyIncreasing
    (Wire.onMessageBinance (Wire.MsgKline (Wire.embedKline Samples.freshKline))
       (List.map Wire.embed Samples.loadedSeries)) ∧
  ¬ Wire.strictlyIncreasing
      (Wire.onMessageBinance (Wire.MsgKline Samples.undatedKline)
         (List.map Wire.embed Samples.loadedSeries)).
Proof.
  assert (Hw : Wire.wholeSeconds (List.map Wire.embed Samples.loadedSeries))
    by (repeat constructor).
  assert (Hs : Wire.strictlyIncreasing (List.map Wire.embed Samples.loadedSeries))
    by (repeat constructor).
  split.
  - apply (proj1 (live_kline_as_it_arrives
                    (Wire.MsgKline (Wire.embedKline Samples.freshKline))
                    (List.map Wire.embed Samples.loadedSeries) Hw Hs)).
    intros k Hk. injection Hk as <-. reflexivity.
  - apply (proj2 (live_kline_as_it_arrives (Wire.MsgKline Samples.undatedKline)
                    (List.map Wire.embed Samples.loadedSeries) Hw Hs)
             Samples.undatedKline eq_refl eq_refl).
    + vm_compute. reflexivity.
    + discriminate.
Defined.

(** ** The realtime daily update, as it arrives *)
Section WireDaily.

Lemma removelast_embed (l : list CandleData) :
  List.removelast (List.map Wire.embed l) = List.map Wire.embed (List.removelast l).
Proof.
  induction l as [|x [|y l] IH]; simpl; [reflexivity..|].
  simpl in IH. now rewrite IH.
Qed.

Lemma applyDailyUpdate_embed (c : CandleData) (prev : list CandleData) :
  Wire.applyDailyUpdate (Wire.embed c) (List.map Wire.embed prev)
  = List.map Wire.embed (Overlay.applyDailyUpdate c prev).
Proof.
  unfold Wire.applyDailyUpdate, Overlay.applyDailyUpdate.
  change (List.map Wire.embed prev) with (Wire.embed <$> prev) at 1.
  rewrite fmap_last. destruct (last prev) as [lastCandle|]; simpl; [|reflexivity].
  destruct (time c =? time lastCandle).
  - now rewrite removelast_embed, List.map_app.
  - destruct (time lastCandle <? time c); [|reflexivity].
    now rewrite List.map_app.
Qed.

(** An update whose time is [NaN] is neither equal to the last time nor
    after it: a series that holds a candle is returned as it is. *)
Lemma applyDailyUpdate_undated (c : Wire.Candle) (prev : list Wire.Candle) :
  Wire.time c = Wire.NotANumber → prev ≠ [] → Wire.applyDailyUpdate c prev = prev.
Proof.
  intros Hc Hne. unfold Wire.applyDailyUpdate.
  destruct (last prev) as [lastCandle|] eqn:Hlast.
  - rewrite Hc. simpl. now rewrite tltb_NaN_r.
  - apply last_None in Hlast. contradiction.
Qed.

End WireDaily.

Lemma seconds_candle (c : Wire.Candle) :
  Wire.isSeconds (Wire.time c) = true → c = Wire.embed (Wire.unembed c).
Proof.
  destruct c as [[| z | |] o h l cl]; simpl; intros H; try discriminate. reflexivity.
Qed.

(** X19: a realtime daily update touches the end of the series only.  On
    a strictly increasing series of dated candles, an update with a
    whole-second time gives a strictly increasing series of the same
    length or one candle more, in which the candles before the last one
    are kept as they are, and which ends with the update unless the update
    is older than the last candle, in which case nothing changes.  An
    update whose time is [NaN] starts an empty series and leaves any other
    series as it is. *)
Theorem daily_update_as_it_arrives (c : Wire.Candle) (prev : list Wire.Candle)
    (Hwhole : Wire.wholeSeconds prev) (Hsorted : Wire.strictlyIncreasing prev) :
  (Wire.isSeconds (Wire.time c) = true →
   Wire.strictlyIncreasing (Wire.applyDailyUpdate c prev)
   ∧ (length prev ≤ length (Wire.applyDailyUpdate c prev) ≤ S (length prev))%nat
   ∧ List.removelast prev `prefix_of` Wire.applyDailyUpdate c prev
   ∧ last (Wire.applyDailyUpdate c prev)
     = Some (match last prev with
             | Some newest =>
                 if Wire.tltb (Wire.time c) (Wire.time newest) then newest else c
             | None => c
             end)
   ∧ (∀ newest, last prev = Some newest →
        Wire.tltb (Wire.time c) (Wire.time newest) = true →
        Wire.applyDailyUpdate c prev = prev)) ∧
  (Wire.time c = Wire.NotANumber →
   Wire.applyDailyUpdate c prev = match prev with [] => [c] | _ :: _ => prev end).
Proof.
  split.
  - intros Hc. rewrite (seconds_candle c Hc).
    set (c' := Wire.unembed c).
    rewrite (wholeSeconds_embed prev Hwhole) in *.
    set (p := List.map Wire.unembed prev) in *.
    apply strictlyIncreasing_unembed in Hsorted.
    rewrite applyDailyUpdate_embed.
    destruct (applyDailyUpdate_dated c' p Hsorted) as (Hs & Hlen & Hpre & Hlast & Hold).
    split; [now apply strictlyIncreasing_embed|].
    split; [now rewrite !List.length_map|].
    split; [|split].
    + rewrite removelast_embed. destruct Hpre as [k Hk].
      exists (List.map Wire.embed k). now rewrite Hk, List.map_app.
    + change (List.map Wire.embed ?l) with (Wire.embed <$> l).
      rewrite !fmap_last, Hlast. simpl.
      destruct (last p) as [newest|]; simpl; [|reflexivity].
      match goal with |- context [?a <? ?b] => destruct (a <? b) end; reflexivity.
    + intros newest Hn Hlt.
      change (List.map Wire.embed p) with (Wire.embed <$> p) in Hn.
      rewrite fmap_last in Hn.
      destruct (last p) as [n|]; simpl in Hn; [|discriminate].
      injection Hn as <-. change ((time c' <? time n) = true) in Hlt.
      rewrite Hlt in Hold. now rewrite Hold.
  - intros Hc. destruct prev as [|x prev]; [reflexivity|].
    now apply applyDailyUpdate_undated.
Qed.

Lemma daily_update_as_it_arrives_witness :
  Wire.strictlyIncreasing
    (Wire.applyDailyUpdate (Wire.embed (flat 220 12))
       (List.map Wire.embed Samples.loadedSeries)) ∧
  Wire.applyDailyUpdate Samples.undatedCandle (List.map Wire.embed Samples.loadedSeries)
  = List.map Wire.embed Samples.loadedSeries.
Proof.
  assert (Hw : Wire.wholeSeconds (List.map Wire.embed Samples.loadedSeries))
    by (repeat constructor).
  assert (Hs : Wire.strictlyIncreasing (List.map Wire.embed Samples.loadedSeries))
    by (repeat constructor).
  split.
  - apply (proj1 (daily_update_as_it_arrives (Wire.embed (flat 220 12))
                    (List.map Wire.embed Samples.loadedSeries) Hw Hs)).
    reflexivity.
  - apply (proj2 (daily_update_as_it_arrives Samples.undatedCandle
                    (List.map Wire.embed Samples.loadedSeries) Hw Hs)).
    reflexivity.
Defined.

(** ** Backfills on candles as they arrive *)
Section WireKeeps.

Lemma last_cons_default {A : Type} (c d : A) (rest : list A) :
  List.last (c :: rest) d = List.last rest c.
Proof.
  revert c d. induction rest as [|c' rest IH]; intros c d; [reflexivity|].
  change (List.last (c :: c' :: rest) d) with (List.last (c' :: rest) d).
  now rewrite !IH.
Qed.

Lemma last_map_cons {A B : Type} (f : A → B) (first : A) (rest : list A) :
  last (List.map f (first :: rest)) = Some (f (List.last rest first)).
Proof.
  revert first. induction rest as [|c rest IH]; intros first; [reflexivity|].
  change (List.map f (first :: c :: rest)) with (f first :: List.map f (c :: rest)).
  change (List.map f (c :: rest)) with (f c :: List.map f rest) at 1.
  rewrite last_cons_cons.
  change (f c :: List.map f rest) with (List.map f (c :: rest)).
  now rewrite IH, last_cons_default.
Qed.

(** With whole-second times, a merge keeps every valid candle of a
    strictly increasing series. *)
Lemma wire_merged_keeps (newBars hist : list Wire.Candle) :
  Wire.wholeSeconds newBars → Wire.wholeSeconds hist →
  Wire.strictlyIncreasing hist →
  Wire.validBars hist ⊆ Wire.validBars (Wire.mergeBars newBars hist).
Proof.
  intros Hn Hh Hs.
  rewrite (wholeSeconds_embed newBars Hn), (wholeSeconds_embed hist Hh) in *.
  set (n := List.map Wire.unembed newBars).
  set (h := List.map Wire.unembed hist) in *.
  apply strictlyIncreasing_unembed in Hs.
  rewrite mergeBars_embed, !validBars_embed.
  destruct (merged_series_facts n h Hs) as (_ & Hkeep & _).
  intros x Hx. apply list_elem_of_In, in_map_iff in Hx as (y & <- & Hy).
  apply elem_of_embed, Hkeep. now apply list_elem_of_In.
Qed.




End WireKeeps.

(** X15: the newer-edge backfill.  It fetches nothing when the newest
    bound is missing, 0 or [NaN], or the requested time is not newer than
    it; otherwise it asks for the range from the newest bound to the
    requested time, in milliseconds, with no horizon.  An empty answer
    leaves the state as it is; a non-empty one is merged and filtered: the
    series becomes the valid candles of the merge, the newest bound the
    time of its last candle, and the oldest bound stays.  When every time
    of the answer and of the held series is a whole number of seconds the
    new series is strictly increasing, and it keeps every valid candle of
    a strictly increasing held series. *)
Theorem loadMoreRecentData_newer_edge_as_coded
    (fetchHistory : Wire.JsTime → Z → list Wire.Candle) (st : Wire.State) (to : Z) :
  (Wire.falsy (Wire.newestLoadedTime st) = true
   ∨ Wire.notNewer to (Wire.newestLoadedTime st) = true →
   Wire.loadMoreRecentData fetchHistory st to = (st, None)) ∧
  (Wire.falsy (Wire.newestLoadedTime st) = false →
   Wire.notNewer to (Wire.newestLoadedTime st) = false →
   let startTime := Wire.toMs (Wire.newestLoadedTime st) in
   let endTime := to * 1000 in
   snd (Wire.loadMoreRecentData fetchHistory st to) = Some (startTime, endTime)
   ∧ (fetchHistory startTime endTime = [] →
      fst (Wire.loadMoreRecentData fetchHistory st to) = st)
   ∧ (fetchHistory startTime endTime ≠ [] →
      let st' := fst (Wire.loadMoreRecentData fetchHistory st to) in
      let merged :=
        Wire.validBars
          (Wire.mergeBars (fetchHistory startTime endTime) (Wire.candleHistory st)) in
      (merged = [] ∧ st' = st) ∨
      (Wire.candleHistory st' = merged
       ∧ Wire.newestLoadedTime st' = last (Wire.times merged)
       ∧ Wire.oldestLoadedTime st' = Wire.oldestLoadedTime st
       ∧ Forall (fun c => Wire.isValidBar c = true) merged
       ∧ (Wire.wholeSeconds (fetchHistory startTime endTime) →
          Wire.wholeSeconds (Wire.candleHistory st) →
          Wire.strictlyIncreasing merged
          ∧ (Wire.strictlyIncreasing (Wire.candleHistory st) →
             Wire.validBars (Wire.candleHistory st) ⊆ merged))))).
Proof.
  split.
  - intros Hguard. unfold Wire.loadMoreRecentData, Wire.requestedRecentRange.
    destruct Hguard as [-> | ->]; [reflexivity | now rewrite orb_true_r].
  - intros Hf Hn startTime endTime.
    unfold Wire.loadMoreRecentData, Wire.requestedRecentRange. rewrite Hf, Hn.
    cbn [orb]. fold startTime endTime.
    destruct (fetchHistory startTime endTime) as [|bar bars] eqn:Hfetch; simpl.
    + split; [reflexivity|]. split; [reflexivity | intros Hne; now contradiction Hne].
    + split; [reflexivity|]. split; [discriminate|]. intros _.
      unfold Wire.applyNewer. cbv zeta.
      destruct (Wire.validBars (Wire.mergeBars (bar :: bars) (Wire.candleHistory st)))
        as [|first rest] eqn:Hm; [left; split; reflexivity | right].
      cbn [Wire.candleHistory Wire.newestLoadedTime Wire.oldestLoadedTime].
      split; [reflexivity|].
      split; [unfold Wire.times; now rewrite last_map_cons|].
      split; [reflexivity|].
      split; [rewrite <- Hm; apply wire_validBars_all_valid|].
      intros Hwn Hwh. rewrite <- Hm. split.
      * apply (wire_merged_whole (bar :: bars) (Wire.candleHistory st) Hwn Hwh).
      * intros Hs. now apply wire_merged_keeps.
Qed.

Lemma loadMoreRecentData_newer_edge_as_coded_witness :
  Wire.loadMoreRecentData Samples.wireNewerBars Samples.wireReadyState (Samples.T0 + 10)
  = (Samples.wireReadyState, None) ∧
  snd (Wire.loadMoreRecentData Samples.wireNewerBars Samples.wireReadyState
         (Samples.T0 + 300))
  = Some (Wire.Seconds 1700000060000, 1700000300000) ∧
  Wire.newestLoadedTime
    (fst (Wire.loadMoreRecentData Samples.wireNewerBars Samples.wireReadyState
            (Samples.T0 + 300)))
  = Some (Wire.Seconds (Samples.T0 + 120)) ∧
  Wire.strictlyIncreasing
    (Wire.validBars
       (Wire.mergeBars (Samples.wireNewerBars (Wire.Seconds 0) 0)
          (Wire.candleHistory Samples.wireReadyState))).
Proof.
  split.
  - apply (proj1 (loadMoreRecentData_newer_edge_as_coded Samples.wireNewerBars
                    Samples.wireReadyState (Samples.T0 + 10))).
    right. vm_compute. reflexivity.
  - destruct (proj2 (loadMoreRecentData_newer_edge_as_coded Samples.wireNewerBars
                       Samples.wireReadyState (Samples.T0 + 300))
                eq_refl eq_refl) as (Hrange & _ & Hfull).
    split; [exact Hrange|].
    destruct Hfull as [[Hnone _] | (_ & Hnew & _ & _ & Hwhole)].
    + vm_compute. discriminate.
    + vm_compute in Hnone. discriminate Hnone.
    + split; [rewrite Hnew; vm_compute; reflexivity|].
      apply Hwhole; repeat constructor.
Defined.



(** On a state with whole-second bounds and a provider with whole-second
    candles, the older-edge backfill above is the one of the whole-second
    model. *)
Lemma loadMoreHistory_embed (fetchHistory : Z → Z → list CandleData)
    (st : Sync.State) (now from : Z) :
  Wire.loadMoreHistory
    (fun startMs endMs =>
       List.map Wire.embed
         (fetchHistory startMs (match endMs with Wire.Seconds z => z | _ => 0 end)))
    (Wire.embedState st) now from
  = (Wire.embedState (fst (Sync.loadMoreHistory fetchHistory st now from)),
     option_map (fun r => (fst r, Wire.Seconds (snd r)))
       (snd (Sync.loadMoreHistory fetchHistory st now from))).
Proof.
  unfold Wire.loadMoreHistory, Sync.loadMoreHistory,
    Wire.requestedRange, Sync.requestedRange.
  destruct st as [hist [oldest|] newest]; simpl; [|reflexivity].
  destruct (oldest =? 0); simpl; [reflexivity|].
  destruct (oldest <=? from); simpl; [reflexivity|].
  change Sync.lookbackStep with (7 * 24 * 60 * 60).
  change Sync.retentionMs with (30 * 24 * 60 * 60 * 1000).
  destruct (Z.max (from - 7 * 24 * 60 * 60) 0 * 1000
            <? now - 30 * 24 * 60 * 60 * 1000); simpl; [reflexivity|].
  destruct (fetchHistory (Z.max (from - 7 * 24 * 60 * 60) 0 * 1000) (oldest * 1000))
    as [|bar bars] eqn:Hfetch; simpl; [reflexivity|].
  f_equal. unfold Wire.applyOlder, Sync.applyOlder. cbv zeta.
  cbn [Wire.candleHistory Wire.embedState Sync.candleHistory].
  change (Wire.embed bar :: List.map Wire.embed bars)
    with (List.map Wire.embed (bar :: bars)).
  rewrite mergeBars_embed, validBars_embed.
  destruct (validBars (mergeBars (bar :: bars) hist)) as [|first rest]; reflexivity.
Qed.
